(** * Notex (pynotex): retrieval-and-generation core

    A shallow embedding of the Python sources
      - [app/vector.py]  ([VectorStore._split_text], [ingest_text],
                          [similarity_search]),
      - [app/agent.py]   ([Agent.generate_transformation],
                          [_call_deepinsight], [parse_ppt_slides]),
      - [app/server.py]  (the [transform] route)
    together with the properties the specification states about them.

    Conventions.  A Python [str] is a sequence of Unicode code points
    ([list N]); a Python [int] is a [Z]; a Python [float] is a binary64
    number ([PrimFloat.float]); a [dict] with string keys is a
    [gmap string _]; a raised exception is the [Raise] branch of [result].
    A [while] loop that may fail to terminate is run with fuel and answers
    [None] when the fuel runs out. *)

From Stdlib Require Import ZArith NArith List Bool Lia Ascii String.
From Stdlib Require Import Floats Uint63 Sorted Permutation.
From stdpp Require Import base option list gmap strings pretty.

Set Default Proof Using "Type".

(* ===================================================================== *)
(** ** Python strings *)
(* ===================================================================== *)

Module PyStr.

(** A code point and a string of code points. *)
Definition char := N.
Definition str := list char.

(** Source literals are written in UTF-8; [u] decodes one into code
    points, so that [u "abc"] is the Python string ['abc']. *)
Fixpoint utf8_go (bs : list N) (need : nat) (acc : N) : str :=
  match bs with
  | [] => []
  | b :: bs' =>
      match need with
      | O =>
          if (b <? 128)%N then b :: utf8_go bs' 0 0%N
          else if (b <? 224)%N then utf8_go bs' 1 (b - 192)%N
          else if (b <? 240)%N then utf8_go bs' 2 (b - 224)%N
          else utf8_go bs' 3 (b - 240)%N
      | S O => (acc * 64 + (b - 128))%N :: utf8_go bs' 0 0%N
      | S n => utf8_go bs' n (acc * 64 + (b - 128))%N
      end
  end.

Definition u (s : string) : str :=
  utf8_go (List.map N_of_ascii (list_ascii_of_string s)) 0 0%N.

Definition char_eqb (a b : char) : bool := (a =? b)%N.

Fixpoint str_eqb (a b : str) : bool :=
  match a, b with
  | [], [] => true
  | x :: a', y :: b' => char_eqb x y && str_eqb a' b'
  | _, _ => false
  end.

(** [len(s)] as a Python integer. *)
Definition len {A} (l : list A) : Z := Z.of_nat (length l).

(** [s.startswith(p)]. *)
Fixpoint is_prefix (p s : str) : bool :=
  match p, s with
  | [], _ => true
  | _ :: _, [] => false
  | a :: p', b :: s' => char_eqb a b && is_prefix p' s'
  end.

(** [needle in hay] for two strings. *)
Fixpoint contains (needle hay : str) : bool :=
  is_prefix needle hay ||
  match hay with
  | [] => false
  | _ :: hay' => contains needle hay'
  end.

(** [s.find(sub)] counted from offset [i]: the first index at which [sub]
    occurs, or [-1]. *)
Fixpoint find_from (sub s : str) (i : Z) : Z :=
  if is_prefix sub s then i
  else match s with
       | [] => (-1)%Z
       | _ :: s' => find_from sub s' (i + 1)%Z
       end.

Definition find (sub s : str) : Z := find_from sub s 0%Z.

(** Slice bounds as Python normalises them: a negative bound counts from
    the end, and every bound is clamped into [0, len]. *)
Definition norm_index (n i : Z) : Z :=
  if (i <? 0)%Z then Z.max (i + n) 0 else Z.min i n.

(** [l[i:j]]. *)
Definition py_slice {A} (l : list A) (i j : Z) : list A :=
  let a := norm_index (len l) i in
  let b := norm_index (len l) j in
  firstn (Z.to_nat (b - a)) (skipn (Z.to_nat a) l).

(** The code points on which [str.split()] (and the regular expression
    class [\s]) separate: Python's Unicode white space. *)
Definition is_space (c : char) : bool :=
  ((9 <=? c) && (c <=? 13) || (28 <=? c) && (c <=? 32) ||
   (c =? 133) || (c =? 160) || (c =? 5760) ||
   (8192 <=? c) && (c <=? 8202) || (c =? 8232) || (c =? 8233) ||
   (c =? 8239) || (c =? 8287) || (c =? 12288))%N.

(** [s.split()]: the maximal runs of non-space code points, in order.
    [cur] holds the run being read, last code point first. *)
Fixpoint split_go (s : str) (cur : str) : list str :=
  match s with
  | [] => match cur with [] => [] | _ => [rev cur] end
  | c :: s' =>
      if is_space c then
        match cur with
        | [] => split_go s' []
        | _ => rev cur :: split_go s' []
        end
      else split_go s' (c :: cur)
  end.

Definition split (s : str) : list str := split_go s [].

(** [sep.join(ws)]. *)
Fixpoint join (sep : str) (ws : list str) : str :=
  match ws with
  | [] => []
  | [w] => w
  | w :: ws' => w ++ sep ++ join sep ws'
  end.

Definition space : str := [32%N].

(** [s.split(sep)] for a non-empty separator: cut at every occurrence of
    [sep], scanning left to right without overlap.  [skip] counts the
    code points of a separator still to be passed over. *)
Fixpoint split_on_go (sep s : str) (skip : nat) (cur : str) : list str :=
  match s with
  | [] => [rev cur]
  | c :: s' =>
      match skip with
      | S k => split_on_go sep s' k cur
      | O =>
          if is_prefix sep s
          then rev cur :: split_on_go sep s' (length sep - 1) []
          else split_on_go sep s' 0 (c :: cur)
      end
  end.

Definition split_on (sep s : str) : list str := split_on_go sep s 0 [].

(** A word as [split] yields them: not empty, no white space inside. *)
Definition is_word (w : str) : Prop :=
  w <> [] /\ Forall (fun c => is_space c = false) w.

(** ASCII case folding: what [str.lower] does to the letters [A]-[Z].
    Code points without a lower-case form (digits, punctuation, CJK
    ideographs) are left as they are. *)
Definition ascii_lower_char (c : char) : char :=
  if ((65 <=? c) && (c <=? 90))%N then (c + 32)%N else c.

Definition ascii_lower (s : str) : str := List.map ascii_lower_char s.

End PyStr.

Import PyStr.

(* ===================================================================== *)
(** ** app/config.py and app/types.py: the data the core reads *)
(* ===================================================================== *)

(** The fields of [Config] the core consults. *)
Record Config := {
  max_sources : Z;
  max_context_length : Z;
  chunk_size : Z;
  chunk_overlap : Z;
  google_api_key : str
}.

(** The dataclass defaults. *)
Definition default_config : Config :=
  {| max_sources := 5; max_context_length := 128000;
     chunk_size := 1000; chunk_overlap := 200; google_api_key := [] |}.

(** [Document]: a chunk with the metadata [ingest_text] gives it,
    [{"source": source_name, "chunk": i}]. *)
Record Document := {
  page_content : str;
  meta_source : str;
  meta_chunk : Z
}.

(** A value stored in a [metadata] dictionary. *)
Inductive meta_value :=
| MStr (s : str)
| MList (l : list str).

Record Source := {
  src_id : option str;
  src_notebook_id : str;
  src_name : str;
  src_type : str;
  src_content : option str;
  src_metadata : gmap string meta_value
}.

Record Note := {
  note_id : option str;
  note_notebook_id : str;
  note_title : str;
  note_content : str;
  note_type : str;
  note_source_ids : list str;
  note_metadata : gmap string meta_value
}.

Record TransformationRequest := {
  req_type : str;
  req_prompt : option str;
  req_source_ids : list str;
  req_length : str;
  req_format : str
}.

Record SourceSummary := {
  sum_id : str;
  sum_name : str;
  sum_type : str
}.

Record TransformationResponse := {
  resp_type : str;
  resp_content : str;
  resp_sources : list SourceSummary;
  resp_metadata : gmap string meta_value
}.

(** [Slide], declared in [app/agent.py]. *)
Record Slide := {
  style : str;
  content : str
}.

(** Binary64 value of a length or a count ([int / int] in Python is the
    correctly rounded quotient; for operands below 2^53 that is the
    quotient of their conversions). *)
Definition float_of_nat (n : nat) : float :=
  PrimFloat.of_uint63 (Uint63.of_Z (Z.of_nat n)).

(** A binary64 number that is not NaN, as its specification sees it. *)
Definition SFordered (a : spec_float) : Prop := a <> S754_nan.

(* ===================================================================== *)
(** ** app/vector.py: the chunker *)
(* ===================================================================== *)

Module Chunker.

(** [c] lies from U+4E00 to U+9FFF, the CJK Unified Ideographs. *)
Definition is_cjk (c : char) : bool := ((19968 <=? c) && (c <=? 40959))%N.

Definition cjk_count (runes : str) : nat := length (List.filter is_cjk runes).

(** [cjk_count / len(runes) if runes else 0]. *)
Definition cjk_ratio (runes : str) : float :=
  match runes with
  | [] => 0%float
  | _ => (float_of_nat (cjk_count runes) / float_of_nat (length runes))%float
  end.

(** [cjk_ratio > 0.3]; the literal is the binary64 number nearest to 0.3. *)
Definition cjk_dominant (text : str) : bool := (0x1.3333333333333p-2 <? cjk_ratio text)%float.

(** The window loop, which [_split_text] runs once over the code points
    and once over the words:
<<
      i = 0
      while i < len(units):
          end = min(i + chunk_size, len(units))
          chunks.append(units[i:end])
          if end >= len(units):
              break
          i += (chunk_size - chunk_overlap)
>>
    [i] is a Python integer and is free to stay put or to move left when
    [chunk_overlap >= chunk_size]; nothing bounds the number of turns, so
    the loop is run with fuel and [None] means the fuel ran out. *)
Fixpoint window_loop {A} (fuel : nat) (units : list A) (size overlap : Z)
    (i : Z) (chunks : list (list A)) : option (list (list A)) :=
  match fuel with
  | O => None
  | S fuel' =>
      if (i <? len units)%Z then
        let end_ := Z.min (i + size) (len units) in
        let chunks' := chunks ++ [py_slice units i end_] in
        if (end_ >=? len units)%Z then Some chunks'
        else window_loop fuel' units size overlap (i + (size - overlap))%Z chunks'
      else Some chunks
  end.

(** [chunk_size <= 0] is replaced by 1000, [chunk_overlap < 0] by 200. *)
Definition effective_size (c : Config) : Z :=
  if (chunk_size c <=? 0)%Z then 1000%Z else chunk_size c.

Definition effective_overlap (c : Config) : Z :=
  if (chunk_overlap c <? 0)%Z then 200%Z else chunk_overlap c.

(** [VectorStore._split_text].  Each window is turned into a string as it
    is appended: [''.join] of its code points in CJK mode, [' '.join] of
    its words otherwise. *)
Definition _split_text (fuel : nat) (c : Config) (text : str)
    : option (list str) :=
  let size := effective_size c in
  let overlap := effective_overlap c in
  if cjk_dominant text then
    window_loop fuel text size overlap 0%Z []
  else
    option_map (List.map (join space))
      (window_loop fuel (split text) size overlap 0%Z []).

(** The units a text is cut into: its code points when ideographs
    dominate, its words otherwise. *)
Definition units_of (text : str) : list str :=
  if cjk_dominant text then List.map (fun c => [c]) text else split text.

(** The in-memory collection [self.docs]. *)
Definition store := list Document.

(** [enumerate(chunks)] turned into documents. *)
Fixpoint make_docs (source_name : str) (i : Z) (chunks : list str)
    : list Document :=
  match chunks with
  | [] => []
  | ch :: rest =>
      {| page_content := ch; meta_source := source_name; meta_chunk := i |}
      :: make_docs source_name (i + 1)%Z rest
  end.

(** [VectorStore.ingest_text]: the number of chunks and the grown store. *)
Definition ingest_text (fuel : nat) (c : Config) (source_name content : str)
    (docs : store) : option (Z * store) :=
  match _split_text fuel c content with
  | None => None
  | Some chunks => Some (len chunks, docs ++ make_docs source_name 0%Z chunks)
  end.

(** The chunks put back together: every chunk after the first gives up
    its first [overlap] units, which repeat the end of the chunk before. *)
Definition reassemble {A} (overlap : nat) (chunks : list (list A)) : list A :=
  match chunks with
  | [] => []
  | c :: rest => c ++ concat (List.map (skipn overlap) rest)
  end.

End Chunker.

Import Chunker.


(* ===================================================================== *)
(** ** app/vector.py: the relevance ranker *)
(* ===================================================================== *)

Module Ranker.

(** The fixed interrogative and reference terms of step 4. *)
Definition question_keywords : list str :=
  [u "介绍"; u "什么"; u "啥"; u "内容"; u "文档"; u "说"].

(** [sum(1 for c in query_runes if c in content)]. *)
Definition match_count (query_runes content : str) : nat :=
  length (List.filter (fun c => contains [c] content) query_runes).

(** Step 3, the loop over [query_lower.split()]. *)
Fixpoint word_loop (words : list str) (content : str) (score : float) : float :=
  match words with
  | [] => score
  | word :: rest =>
      word_loop rest content
        (if (2 <? len word)%Z && contains word content
         then (score + 2)%float else score)
  end.

(** Step 4, the loop over the keywords, left by [break] at the first one
    the query contains. *)
Fixpoint keyword_loop (keywords : list str) (query_lower : str) (score : float)
    : float :=
  match keywords with
  | [] => score
  | keyword :: rest =>
      if contains keyword query_lower then (score + 1)%float
      else keyword_loop rest query_lower score
  end.

(** [scored_docs.sort(key=lambda x: x[1], reverse=True)].  Python's sort
    is stable, also under [reverse=True], and compares keys with [<]:
    among scored chunks, one moves ahead of another only when its score
    is strictly greater.  [insert_desc x l] places [x], which stood before
    everything in [l], behind exactly the entries that beat it. *)
Fixpoint insert_desc (x : Document * float) (l : list (Document * float))
    : list (Document * float) :=
  match l with
  | [] => [x]
  | y :: l' =>
      if (snd x <? snd y)%float then y :: insert_desc x l' else x :: y :: l'
  end.

Definition sort_desc (l : list (Document * float)) : list (Document * float) :=
  fold_right insert_desc [] l.

(** A score that passed the test [score > 0]. *)
Definition positive_score (s : float) : Prop := (0 <? s)%float = true.

(** [x] stands before [y] in [l]. *)
Definition precedes (x y : Document * float) (l : list (Document * float))
    : Prop :=
  sublist [x; y] l.

(** No entry is beaten by a later one. *)
Definition descending (l : list (Document * float)) : Prop :=
  StronglySorted (fun a b => (snd a <? snd b)%float = false) l.

Section WithLower.

(** [str.lower], Python's Unicode case mapping, is a table of the
    interpreter and not of this repository. *)
Variable lower : str -> str.

(** The score of one document, the body of the [for doc in self.docs]
    loop. *)
Definition score_doc (query_lower : str) (doc : Document) : float :=
  let content := lower (page_content doc) in
  let score := 0%float in
  let score := if contains query_lower content then (score + 10)%float
               else score in
  let count := match_count query_lower content in
  let score :=
    if (0 <? count)%nat
    then (score + float_of_nat count / float_of_nat (length query_lower) * 5)%float
    else score in
  let score := word_loop (split query_lower) content score in
  keyword_loop question_keywords query_lower score.

(** The loop itself: documents with [score > 0], in storage order. *)
Fixpoint score_docs (query_lower : str) (docs : list Document)
    : list (Document * float) :=
  match docs with
  | [] => []
  | doc :: rest =>
      let score := score_doc query_lower doc in
      if (0 <? score)%float then (doc, score) :: score_docs query_lower rest
      else score_docs query_lower rest
  end.

(** The scored set, said in one piece: the documents of positive score,
    in storage order, each with its score. *)
Definition scored (query : str) (docs : list Document)
    : list (Document * float) :=
  List.map (fun d => (d, score_doc (lower query) d))
    (List.filter (fun d => (0 <? score_doc (lower query) d)%float) docs).

(** The ranked set: [scored_docs] after the sort. *)
Definition ranked (query : str) (docs : list Document)
    : list (Document * float) :=
  sort_desc (score_docs (lower query) docs).

(** [num_docs <= 0] is replaced by 5. *)
Definition effective_limit (num_docs : Z) : Z :=
  if (num_docs <=? 0)%Z then 5%Z else num_docs.

(** [VectorStore.similarity_search].  The store is only read. *)
Definition similarity_search (query : str) (num_docs : Z) (docs : store)
    : list Document :=
  let num_docs := effective_limit num_docs in
  if (len docs =? 0)%Z then []
  else
    let scored_docs := ranked query docs in
    if (len scored_docs =? 0)%Z then py_slice docs 0 num_docs
    else List.map fst (py_slice scored_docs 0 num_docs).

(** The fraction of the query's code points that occur in the chunk; it
    is 0 when none does. *)
Definition char_fraction (q chunk : str) : float :=
  match match_count q chunk with
  | O => 0%float
  | S _ => (float_of_nat (match_count q chunk) / float_of_nat (length q))%float
  end.

(** The score as the specification words it, with every test made on the
    chunk as stored:  +10 when the lower-cased query is a substring of the
    chunk, +5 times the fraction of query characters found in the chunk,
    +2 for each query word longer than two found in the chunk, +1 once
    when the query holds one of the fixed terms. *)
Definition spec_score (query : str) (doc : Document) : float :=
  let q := lower query in
  let chunk := page_content doc in
  let s := if contains q chunk then 10%float else 0%float in
  let s := (s + char_fraction q chunk * 5)%float in
  let s :=
    fold_left (fun acc _ => (acc + 2)%float)
      (List.filter (fun w => (2 <? len w)%Z && contains w chunk) (split q)) s in
  if existsb (fun k => contains k q) question_keywords then (s + 1)%float else s.

(** The same, with every test made on the lower-cased chunk. *)
Definition spec_score_lowered (query : str) (doc : Document) : float :=
  spec_score query
    {| page_content := lower (page_content doc);
       meta_source := meta_source doc; meta_chunk := meta_chunk doc |}.

End WithLower.

(** [VectorStore.delete], kept apart from the finite maps' [delete]. *)
Module Docs.
Definition delete (source_name : str) (docs : store) : store :=
  List.filter (fun doc => negb (str_eqb (meta_source doc) source_name)) docs.
End Docs.

End Ranker.

Import Ranker.

(* ===================================================================== *)
(** ** Exceptions, results and the world the agent acts on *)
(* ===================================================================== *)

Module Py.

(** The exception classes that reach the code below.  Every one of them
    derives from [Exception] except [CancelledError], which derives from
    [BaseException] only. *)
Inductive exn_class :=
| FileNotFoundError
| PermissionError
| AsyncioTimeoutError
| RuntimeError
| ValueError
| KeyError
| UnicodeDecodeError
| CancelledError
| HTTPException (status_code : Z).

Record exn := { exn_kind : exn_class; exn_message : str }.

Definition is_FileNotFoundError (e : exn) : bool :=
  match exn_kind e with FileNotFoundError => true | _ => false end.

Definition is_TimeoutError (e : exn) : bool :=
  match exn_kind e with AsyncioTimeoutError => true | _ => false end.

Definition is_Exception (e : exn) : bool :=
  match exn_kind e with CancelledError => false | _ => true end.


(** The outcome of a call: a value, or a raised exception. *)
Inductive result (A : Type) :=
| Ok (a : A)
| Raise (e : exn).
Arguments Ok {A} a.
Arguments Raise {A} e.


(** [str(n)] for an integer. *)
Definition str_of_Z (n : Z) : str := u (pretty n).

End Py.

Import Py.

Module World.

(** What a file holds: text that decodes as UTF-8, or bytes that do not. *)
Inductive fcontent :=
| Text (s : str)
| Undecodable.

Inductive level := WARNING | ERROR.

(** One run of the external tool, as the invoker can observe it. *)
Record process := {
  (** seconds until [proc.communicate()] returns; [None]: it never does *)
  proc_duration : option Z;
  proc_returncode : Z;
  (** captured standard error, decoded *)
  proc_stderr : str;
  (** what the run leaves at the [-o] path, if anything *)
  proc_output : option fcontent
}.

(** [asyncio.create_subprocess_exec]: it raises (a missing executable
    gives [FileNotFoundError]) or starts a process. *)
Inductive spawn :=
| SpawnRaises (e : exn)
| Spawned (p : process).

(** The collaborators of the core: the text and image providers, the
    external tool, the clock, and the modules [app.prompt] and
    [app.store], which are not among the sources.  A provider's answer
    may depend on how many calls came before it. *)
Record env := {
  (** [self.llm.chat.completions.create(...).choices[0].message.content] *)
  llm_reply : nat -> str -> result str;
  (** [genai.GenerativeModel(model).generate_content(prompt).text] *)
  gemini_reply : nat -> str -> str -> result str;
  (** one attempt to generate and save an image: the saved path *)
  imagen_reply : nat -> str -> str -> result str;
  (** [GENAI_AVAILABLE] *)
  genai_available : bool;
  (** the run of [./DeepInsight -o path summary] *)
  deepinsight : string -> str -> spawn;
  (** [int(asyncio.get_event_loop().time() * 1000)] *)
  clock_ms : Z;
  (** [get_transformation_prompt(req.type).format(sources=..., ...)] *)
  build_prompt : TransformationRequest -> str -> result str;
  (** [store.list_sources(notebook_id)] *)
  list_sources : str -> list Source;
  (** [store.create_note(note)] *)
  create_note : Note -> result Note;
  (** [store.create_source(source)] *)
  create_source : Source -> result Source;
  (** [store.update_source_chunk_count(id, count)] *)
  update_source_chunk_count : option str -> Z -> result unit;
  (** [datetime.now().isoformat()] *)
  now_iso : str
}.

(** The state the calls thread: the scratch files, the prompts each
    provider has received (oldest first), the calls of [generate_image]
    and the attempts they made, the chunk collection, and the warnings and
    errors logged (messages of level INFO are not kept). *)
Record world := {
  files : gmap string fcontent;
  llm_prompts : list str;
  gemini_prompts : list str;
  image_requests : list str;
  image_prompts : list str;
  docs : store;
  logs : list (level * str)
}.

Definition set_files (f : gmap string fcontent) (w : world) : world :=
  {| files := f;
     llm_prompts := llm_prompts w;
     gemini_prompts := gemini_prompts w;
     image_requests := image_requests w;
     image_prompts := image_prompts w;
     docs := docs w;
     logs := logs w |}.

Definition add_llm_prompt (p : str) (w : world) : world :=
  {| files := files w;
     llm_prompts := llm_prompts w ++ [p];
     gemini_prompts := gemini_prompts w;
     image_requests := image_requests w;
     image_prompts := image_prompts w;
     docs := docs w;
     logs := logs w |}.

Definition add_gemini_prompt (p : str) (w : world) : world :=
  {| files := files w;
     llm_prompts := llm_prompts w;
     gemini_prompts := gemini_prompts w ++ [p];
     image_requests := image_requests w;
     image_prompts := image_prompts w;
     docs := docs w;
     logs := logs w |}.

Definition add_image_request (p : str) (w : world) : world :=
  {| files := files w;
     llm_prompts := llm_prompts w;
     gemini_prompts := gemini_prompts w;
     image_requests := image_requests w ++ [p];
     image_prompts := image_prompts w;
     docs := docs w;
     logs := logs w |}.

Definition add_image_prompt (p : str) (w : world) : world :=
  {| files := files w;
     llm_prompts := llm_prompts w;
     gemini_prompts := gemini_prompts w;
     image_requests := image_requests w;
     image_prompts := image_prompts w ++ [p];
     docs := docs w;
     logs := logs w |}.

Definition set_docs (d : store) (w : world) : world :=
  {| files := files w;
     llm_prompts := llm_prompts w;
     gemini_prompts := gemini_prompts w;
     image_requests := image_requests w;
     image_prompts := image_prompts w;
     docs := d;
     logs := logs w |}.

Definition log (l : level) (msg : str) (w : world) : world :=
  {| files := files w;
     llm_prompts := llm_prompts w;
     gemini_prompts := gemini_prompts w;
     image_requests := image_requests w;
     image_prompts := image_prompts w;
     docs := docs w;
     logs := logs w ++ [(l, msg)] |}.

Definition empty_world : world :=
  {| files := ∅; llm_prompts := []; gemini_prompts := [];
     image_requests := []; image_prompts := []; docs := []; logs := [] |}.

(** A computation that reads and changes the world and returns or
    raises. *)
Definition M (A : Type) : Type := world -> result A * world.

Definition ret {A} (a : A) : M A := fun w => (Ok a, w).

Definition raise {A} (e : exn) : M A := fun w => (Raise e, w).

Definition bind {A B} (m : M A) (k : A -> M B) : M B :=
  fun w =>
    match m w with
    | (Ok a, w') => k a w'
    | (Raise e, w') => (Raise e, w')
    end.

(** [try: m  except <handled> as e: h e]. *)
Definition try_except {A} (m : M A) (handled : exn -> bool) (h : exn -> M A)
    : M A :=
  fun w =>
    match m w with
    | (Raise e, w') => if handled e then h e w' else (Raise e, w')
    | r => r
    end.

(** [try: m  finally: cleanup]. *)
Definition try_finally {A} (m : M A) (cleanup : world -> world) : M A :=
  fun w => let '(r, w') := m w in (r, cleanup w').

Definition modify (f : world -> world) : M unit := fun w => (Ok tt, f w).

End World.

Import World.

Notation "'let*' x ':=' m 'in' k" := (bind m (fun x => k))
  (at level 10, x binder, k at level 200).

(* ===================================================================== *)
(** ** The regular expression of the slide parser *)
(* ===================================================================== *)

Module Regex.

(** The fragment of Python's [re] syntax the slide pattern is written in.
    Repetition is greedy and applies to single code points only, as in
    the pattern. *)
Inductive re :=
| Cls (p : char -> bool)                    (* one code point of a class *)
| Star (p : char -> bool)                   (* [p*] *)
| Rep (p : char -> bool) (lo hi : nat)      (* [p{lo,hi}] *)
| Lit (s : str)                             (* a literal *)
| Bol                                       (* [^] under [re.MULTILINE] *)
| Eol                                       (* [$] under [re.MULTILINE] *)
| Seq (a b : re)
| Alt (a b : re)                            (* [a|b], [a] tried first *)
| Opt (a : re).                             (* [(?:a)?] *)

Definition newline : char := 10%N.

(** A position in the subject: the code point before it (none at the
    start), the text from it on, and its offset. *)
Record cursor := { before : option char; rest : str; offset : nat }.

Definition advance (c : char) (s : str) (cur : cursor) : cursor :=
  {| before := Some c; rest := s; offset := S (offset cur) |}.

(** Greedy [p*]: take as many code points as match, then give back one at
    a time until the continuation [k] succeeds. *)
Fixpoint star_go (p : char -> bool) (s : str) (cur : cursor)
    (k : cursor -> option nat) : option nat :=
  match s with
  | c :: s' =>
      if p c then
        match star_go p s' (advance c s' cur) k with
        | Some e => Some e
        | None => k cur
        end
      else k cur
  | [] => k cur
  end.

(** Greedy [p{lo,hi}]. *)
Fixpoint rep_go (p : char -> bool) (lo hi : nat) (cur : cursor)
    (k : cursor -> option nat) : option nat :=
  let stop := match lo with O => k cur | S _ => None end in
  match hi with
  | O => stop
  | S hi' =>
      match rest cur with
      | c :: s' =>
          if p c then
            match rep_go p (pred lo) hi' (advance c s' cur) k with
            | Some e => Some e
            | None => stop
            end
          else stop
      | [] => stop
      end
  end.

(** A literal, code point by code point. *)
Fixpoint lit_go (l : str) (cur : cursor) (k : cursor -> option nat)
    : option nat :=
  match l with
  | [] => k cur
  | a :: l' =>
      match rest cur with
      | c :: s' =>
          if char_eqb a c then lit_go l' (advance c s' cur) k else None
      | [] => None
      end
  end.

(** The backtracking matcher: the end offset of the first match of [r] at
    [cur], in the engine's order of preference, that [k] accepts. *)
Fixpoint rmatch (r : re) (cur : cursor) (k : cursor -> option nat)
    : option nat :=
  match r with
  | Cls p =>
      match rest cur with
      | c :: s' => if p c then k (advance c s' cur) else None
      | [] => None
      end
  | Star p => star_go p (rest cur) cur k
  | Rep p lo hi => rep_go p lo hi cur k
  | Lit l => lit_go l cur k
  | Bol =>
      match before cur with
      | None => k cur
      | Some c => if char_eqb c newline then k cur else None
      end
  | Eol =>
      match rest cur with
      | [] => k cur
      | c :: _ => if char_eqb c newline then k cur else None
      end
  | Seq a b => rmatch a cur (fun cur' => rmatch b cur' k)
  | Alt a b =>
      match rmatch a cur k with
      | Some e => Some e
      | None => rmatch b cur k
      end
  | Opt a =>
      match rmatch a cur k with
      | Some e => Some e
      | None => k cur
      end
  end.

Definition match_at (r : re) (cur : cursor) : option nat :=
  rmatch r cur (fun cur' => Some (offset cur')).

(** [pattern.finditer(subject)]: the spans (start, end) of the matches,
    found left to right, each search resuming where the match before it
    ended.  [skip] counts the code points of the last match still to be
    passed over.  (The slide pattern matches no empty string.) *)
Fixpoint finditer_go (r : re) (s : str) (cur : cursor) (skip : nat)
    : list (nat * nat) :=
  match s with
  | [] =>
      match skip, match_at r cur with
      | O, Some e => [(offset cur, e)]
      | _, _ => []
      end
  | c :: s' =>
      match skip with
      | S n => finditer_go r s' (advance c s' cur) n
      | O =>
          match match_at r cur with
          | Some e =>
              (offset cur, e)
              :: finditer_go r s' (advance c s' cur) (e - offset cur - 1)
          | None => finditer_go r s' (advance c s' cur) 0
          end
      end
  end.

Definition finditer (r : re) (subject : str) : list (nat * nat) :=
  finditer_go r subject {| before := None; rest := subject; offset := 0 |} 0.

(** [\d]: the decimal digits of Unicode (general category Nd), as ranges
    of code points. *)
Definition digit_ranges : list (N * N) :=
  [(48, 57); (1632, 1641); (1776, 1785); (1984, 1993); (2406, 2415);
   (2534, 2543); (2662, 2671); (2790, 2799); (2918, 2927); (3046, 3055);
   (3174, 3183); (3302, 3311); (3430, 3439); (3558, 3567); (3664, 3673);
   (3792, 3801); (3872, 3881); (4160, 4169); (4240, 4249); (6112, 6121);
   (6160, 6169); (6470, 6479); (6608, 6617); (6784, 6793); (6800, 6809);
   (6992, 7001); (7088, 7097); (7232, 7241); (7248, 7257); (42528, 42537);
   (43216, 43225); (43264, 43273); (43472, 43481); (43504, 43513);
   (43600, 43609); (44016, 44025); (65296, 65305); (66720, 66729);
   (68912, 68921); (69734, 69743); (69872, 69881); (69942, 69951);
   (70096, 70105); (70384, 70393); (70736, 70745); (70864, 70873);
   (71248, 71257); (71360, 71369); (71472, 71481); (71904, 71913);
   (72016, 72025); (72784, 72793); (73040, 73049); (73120, 73129);
   (92768, 92777); (92864, 92873); (93008, 93017); (120782, 120831);
   (123200, 123209); (123632, 123641); (125264, 125273);
   (130032, 130041)]%N.

Definition is_digit (c : char) : bool :=
  existsb (fun r => (fst r <=? c) && (c <=? snd r))%N digit_ranges.

(** [.], any code point but a newline. *)
Definition is_dot (c : char) : bool := negb (char_eqb c newline).

Definition is_hash (c : char) : bool := char_eqb c 35%N.

(** [[:\s]]. *)
Definition is_colon_or_space (c : char) : bool := char_eqb c 58%N || is_space c.

End Regex.

Import Regex.

(* ===================================================================== *)
(** ** app/agent.py: the slide parser *)
(* ===================================================================== *)

Module SlideParser.

(** The pattern, compiled with [re.MULTILINE]: an optional heading prefix
    "^(?:\s*#{1,6}\s*" (the group is closed and made optional), then
    "(?:Slide|幻灯片|第\d+张幻灯片|##)" and "\s*\d+[:\s]*.*$". *)
Definition slide_pattern : re :=
  Seq Bol
  (Seq (Opt (Seq (Star is_space) (Seq (Rep is_hash 1 6) (Star is_space))))
  (Seq (Alt (Lit (u "Slide"))
       (Alt (Lit (u "幻灯片"))
       (Alt (Seq (Lit (u "第"))
            (Seq (Cls is_digit) (Seq (Star is_digit) (Lit (u "张幻灯片")))))
            (Lit (u "##")))))
  (Seq (Star is_space)
  (Seq (Cls is_digit) (Seq (Star is_digit)
  (Seq (Star is_colon_or_space)
  (Seq (Star is_dot) Eol))))))).

(** [[m.start() for m in pattern.finditer(content)]]. *)
Definition slide_starts (content : str) : list nat :=
  List.map fst (finditer slide_pattern content).

Definition style_open : str := u "<STYLE_INSTRUCTIONS>".
Definition style_close : str := u "</STYLE_INSTRUCTIONS>".

(** Step 1, the style block. *)
Definition extract_style (content : str) : str :=
  let style_start := find style_open content in
  let style_end := find style_close content in
  if negb (style_start =? -1)%Z && (style_end >? style_start)%Z
  then py_slice content (style_start + 20) style_end
  else [].

Section WithLower.

Variable lower : str -> str.

Definition required_fields : list str :=
  [u "叙事目标"; u "narrative goal"; u "关键内容"].

(** Step 2, the loop over the matches: [starts] are the match starts
    still to visit, the first of them the current match. *)
Fixpoint heading_slides (style content : str) (starts : list nat) : list Slide :=
  match starts with
  | [] => []
  | start :: later =>
      let end_ := match later with
                  | [] => len content
                  | next :: _ => Z.of_nat next
                  end in
      let slide_content := py_slice content (Z.of_nat start) end_ in
      let lower_ := lower slide_content in
      let tail := heading_slides style content later in
      if existsb (fun keyword => contains keyword lower_) required_fields
      then {| style := style; content := slide_content |} :: tail
      else tail
  end.

Definition marker_cn : str := u "// 叙事目标".
Definition marker_en : str := u "// NARRATIVE GOAL".

(** Step 3, the split on the inline marker; the text before the first
    marker, [parts[0]], is not made a slide. *)
Definition marker_slides (style content : str) : list Slide :=
  let marker := if contains marker_cn content then marker_cn else marker_en in
  if contains marker content then
    List.map (fun part => {| style := style; content := marker ++ part |})
      (List.tl (split_on marker content))
  else [].

(** [Agent.parse_ppt_slides], given the starts of the pattern's matches. *)
Definition parse_with (starts : list nat) (content : str) : list Slide :=
  let style := extract_style content in
  let slides := heading_slides style content starts in
  let slides := match slides with
                | [] => marker_slides style content
                | _ => slides
                end in
  match slides with
  | [] => [{| style := style; content := content |}]
  | _ => slides
  end.

(** [Agent.parse_ppt_slides]. *)
Definition parse_ppt_slides (content : str) : list Slide :=
  parse_with (slide_starts content) content.

End WithLower.

End SlideParser.

Import SlideParser.

(* ===================================================================== *)
(** ** app/gemini.py and app/agent.py: providers, invoker, orchestrator *)
(* ===================================================================== *)

Module Agent.

Definition nl : str := [10%N].

Definition mk_exn (k : exn_class) (msg : str) : exn :=
  {| exn_kind := k; exn_message := msg |}.

(** [self.vector_store.similarity_search(query, num_docs)] as a call on
    the world: the collection is read, and left as it is. *)
Definition search_store (lower : str -> str) (query : str) (num_docs : Z)
    : M (list Document) :=
  fun w => (Ok (similarity_search lower query num_docs (docs w)), w).

Section WithEnv.

Variable E : env.
Variable config : Config.

(** [self.gemini = GeminiClient(key) if config.google_api_key else None]:
    the client exists when the key is a non-empty string. *)
Definition gemini_configured : bool :=
  match google_api_key config with [] => false | _ => true end.

(** [GeminiClient.generate_text]. *)
Definition gemini_generate_text (prompt model : str) : M str :=
  fun w =>
    if negb gemini_configured
    then (Raise (mk_exn ValueError (u "google_api_key is not set")), w)
    else if negb (genai_available E)
    then (Raise (mk_exn RuntimeError
                   (u "google-generativeai package is not installed")), w)
    else
      let w1 := add_gemini_prompt prompt w in
      match gemini_reply E (length (gemini_prompts w)) model prompt with
      | Ok text => (Ok text, w1)
      | Raise e =>
          if is_Exception e
          then (Raise (mk_exn RuntimeError
                         (u "Failed to generate text: " ++ exn_message e)), w1)
          else (Raise e, w1)
      end.

(** The retry loop of [GeminiClient.generate_image],
    [for attempt in range(1, 4)]: [left] turns remain, the next one
    numbered [attempt]. *)
Fixpoint image_attempts (left : nat) (attempt : Z) (model prompt : str)
    : M str :=
  match left with
  | O => raise (mk_exn RuntimeError (u "Failed to generate image after 3 attempts"))
  | S left' =>
      fun w =>
        let w1 := add_image_prompt prompt w in
        match imagen_reply E (length (image_prompts w)) model prompt with
        | Ok path => (Ok path, w1)
        | Raise e =>
            if is_Exception e
            then image_attempts left' (attempt + 1)%Z model prompt
                   (log ERROR (u "Image generation attempt " ++ str_of_Z attempt
                               ++ u " failed: " ++ exn_message e) w1)
            else (Raise e, w1)
        end
  end.

(** [GeminiClient.generate_image]; every call is recorded. *)
Definition gemini_generate_image (model prompt : str) : M str :=
  let* _ := modify (add_image_request prompt) in
  if negb gemini_configured
  then raise (mk_exn ValueError (u "google_api_key is not set"))
  else if negb (genai_available E)
  then raise (mk_exn RuntimeError
                (u "google-generativeai package is not installed"))
  else image_attempts 3 1%Z model prompt.

(** [Agent._generate_text]: one call of the primary provider; a failure
    is logged and raised again. *)
Definition _generate_text (prompt : str) : M str :=
  fun w =>
    let w1 := add_llm_prompt prompt w in
    match llm_reply E (length (llm_prompts w)) prompt with
    | Ok text => (Ok text, w1)
    | Raise e =>
        if is_Exception e
        then (Raise e, log ERROR (u "LLM generation failed: " ++ exn_message e) w1)
        else (Raise e, w1)
    end.

(** *** The external-tool invoker *)

(** [str(tmp_dir / f"deepinsight_report_{...}.md")]. *)
Definition tmp_file : string :=
  "data/tmp/deepinsight_report_" +:+ pretty (clock_ms E) +:+ ".md".

(** [asyncio.wait_for(proc.communicate(), timeout)]: the captured
    standard error when the process ends within the ceiling, a timeout
    error otherwise. *)
Definition wait_for (timeout : Z) (p : process) : result str :=
  match proc_duration p with
  | Some d =>
      if (d <=? timeout)%Z then Ok (proc_stderr p)
      else Raise (mk_exn AsyncioTimeoutError [])
  | None => Raise (mk_exn AsyncioTimeoutError [])
  end.

(** [tmp_file.read_text(encoding="utf-8")]. *)
Definition read_text (path : string) : M str :=
  fun w =>
    match files w !! path with
    | Some (Text s) => (Ok s, w)
    | Some Undecodable =>
        (Raise (mk_exn UnicodeDecodeError (u "invalid start byte")), w)
    | None =>
        (Raise (mk_exn FileNotFoundError
                  (u "No such file or directory: " ++ u path)), w)
    end.

(** What the process leaves behind at the output path. *)
Definition write_output (p : process) (w : world) : world :=
  match proc_output p with
  | Some c => set_files (<[tmp_file := c]> (files w)) w
  | None => w
  end.

(** The body of the [try] in [_call_deepinsight]. *)
Definition run_deepinsight (summary : str) : M str :=
  fun w =>
    match deepinsight E tmp_file summary with
    | SpawnRaises e => (Raise e, w)
    | Spawned p =>
        let w1 := write_output p w in
        match wait_for 600 p with
        | Raise e => (Raise e, w1)
        | Ok stderr =>
            if negb (proc_returncode p =? 0)%Z
            then (Raise (mk_exn RuntimeError
                           (u "DeepInsight command failed: " ++ stderr)), w1)
            else read_text tmp_file w1
        end
    end.

(** The [finally] clause: [if tmp_file.exists(): tmp_file.unlink()]. *)
Definition cleanup (w : world) : world :=
  match files w !! tmp_file with
  | Some _ => set_files (delete tmp_file (files w)) w
  | None => w
  end.

Definition timeout_error : exn :=
  mk_exn RuntimeError (u "DeepInsight command timeout after 10 minutes").

(** [Agent._call_deepinsight]. *)
Definition _call_deepinsight (summary : str) : M str :=
  try_finally
    (try_except (run_deepinsight summary)
       (fun e => is_TimeoutError e || is_Exception e)
       (fun e =>
          if is_TimeoutError e then raise timeout_error
          else
            let* _ := modify (log ERROR (u "DeepInsight execution failed: "
                                         ++ exn_message e)) in
            raise e))
    cleanup.

(** *** The orchestrator *)

(** The source context, part by part, sources numbered from [i]. *)
Fixpoint source_context_parts (i : Z) (sources : list Source) : list str :=
  match sources with
  | [] => []
  | src :: later =>
      let content := default [] (src_content src) in
      let limit := max_context_length config in
      [nl ++ u "## Source " ++ str_of_Z i ++ u ": " ++ src_name src ++ nl]
      ++ (if (len content <=? limit)%Z then [content]
          else [py_slice content 0 limit;
                nl ++ u "... [Content truncated, total length: "
                ++ str_of_Z (len content) ++ u "]"])
      ++ [nl]
      ++ source_context_parts (i + 1)%Z later
  end.

Definition source_context (sources : list Source) : str :=
  concat (source_context_parts 1%Z sources).

(** The prompt of the tool-not-found branch. *)
Definition insight_prompt (summary : str) : str :=
  u "基于以下摘要，生成一份深度洞察报告。

摘要内容：
" ++ summary ++ u "

请生成一份包含以下内容的深度洞察报告：
1. 核心发现和关键洞察
2. 数据趋势和模式分析
3. 潜在问题和风险
4. 机会识别和建议
5. 战略性思考和建议

报告应该具有深度和前瞻性，提供独特的视角和见解。使用中文输出。".

(** The prompt of the branch for every other failure. *)
Definition simple_insight_prompt (summary : str) : str :=
  u "基于以下内容生成深度洞察报告：" ++ nl ++ nl ++ summary.

(** The [insight] strategy. *)
Definition insight_response (prompt : str) : M str :=
  let* summary := _generate_text prompt in
  try_except (_call_deepinsight summary)
    (fun e => is_FileNotFoundError e || is_Exception e)
    (fun e =>
       if is_FileNotFoundError e then
         let* _ := modify (log WARNING
           (u "DeepInsight CLI not found, using LLM for insight generation")) in
         _generate_text (insight_prompt summary)
       else
         let* _ := modify (log ERROR
           (u "DeepInsight execution failed: " ++ exn_message e
            ++ u ", falling back to LLM")) in
         _generate_text (simple_insight_prompt summary)).

(** [SourceSummary(id=src.id, name=src.name, type=src.type)]; the model
    class requires [id] to be a string. *)
Fixpoint source_summaries (sources : list Source) : result (list SourceSummary) :=
  match sources with
  | [] => Ok []
  | src :: later =>
      match src_id src with
      | None => Raise (mk_exn ValueError (u "id: Input should be a valid string"))
      | Some i =>
          match source_summaries later with
          | Ok l => Ok ({| sum_id := i; sum_name := src_name src;
                           sum_type := src_type src |} :: l)
          | Raise e => Raise e
          end
      end
  end.

Definition lift {A} (r : result A) : M A := fun w => (r, w).

Definition request_metadata (req : TransformationRequest)
    : gmap string meta_value :=
  <["format" := MStr (req_format req)]>
    (<["length" := MStr (req_length req)]> ∅).

(** [Agent.generate_transformation]. *)
Definition generate_transformation (req : TransformationRequest)
    (sources : list Source) : M TransformationResponse :=
  let* prompt := lift (build_prompt E req (source_context sources)) in
  let* response :=
    if str_eqb (req_type req) (u "ppt") then
      if gemini_configured
      then gemini_generate_text prompt (u "gemini-2.0-flash-exp")
      else _generate_text prompt
    else if str_eqb (req_type req) (u "insight") then
      insight_response prompt
    else _generate_text prompt in
  let* summaries := lift (source_summaries sources) in
  ret {| resp_type := req_type req;
         resp_content := response;
         resp_sources := summaries;
         resp_metadata := request_metadata req |}.

End WithEnv.

End Agent.

Import Agent.

(* ===================================================================== *)
(** ** app/server.py: the transform route *)
(* ===================================================================== *)

Module Server.

(** [_get_title_for_type]. *)
Definition titles : list (str * str) :=
  [(u "summary", u "摘要"); (u "faq", u "常见问题解答");
   (u "study_guide", u "学习指南"); (u "outline", u "大纲");
   (u "podcast", u "播客脚本"); (u "timeline", u "时间线");
   (u "glossary", u "术语表"); (u "quiz", u "测验");
   (u "infograph", u "信息图"); (u "ppt", u "幻灯片");
   (u "mindmap", u "思维导图"); (u "insight", u "洞察报告")].

Fixpoint assoc (k : str) (l : list (str * str)) (default : str) : str :=
  match l with
  | [] => default
  | (k', v) :: l' => if str_eqb k k' then v else assoc k l' default
  end.

Definition _get_title_for_type (t : str) : str := assoc t titles (u "笔记").

(** [Path(p).name]: the last component of a path, empty components and
    [.] components apart. *)
Definition basename (p : str) : str :=
  List.last
    (List.filter (fun part => negb (str_eqb part [] || str_eqb part (u ".")))
       (split_on (u "/") p)) [].

(** [source_map[sid]] for [source_map = {s.id: s for s in sources}]: of
    the sources with this id, the one listed last. *)
Fixpoint source_map_get (sid : str) (sources : list Source) : option Source :=
  match sources with
  | [] => None
  | s :: later =>
      match source_map_get sid later with
      | Some s' => Some s'
      | None =>
          match src_id s with
          | Some i => if str_eqb i sid then Some s else None
          | None => None
          end
      end
  end.

(** [[source_map[sid] for sid in req.source_ids if sid in source_map]]. *)
Fixpoint select_sources (ids : list str) (sources : list Source) : list Source :=
  match ids with
  | [] => []
  | sid :: later =>
      match source_map_get sid sources with
      | Some s => s :: select_sources later sources
      | None => select_sources later sources
      end
  end.

Definition chinese_please : str :=
  u "**注意：无论来源是什么语言，请务必使用中文**".

Definition image_model : str := u "gemini-3-pro-image-preview".

(** The message stored when a deck has too many slides. *)
Definition too_many_slides_message : str :=
  u "PPT页数超过20页上限，已停止生成图片".

(** The prompt for the image of one slide; the style is the first
    slide's. *)
Definition slide_prompt (first_style : str) (slide : Slide) : str :=
  u "Style: " ++ first_style ++ nl ++ nl
  ++ u "Slide Content: " ++ content slide
  ++ nl ++ nl ++ chinese_please ++ nl.

(** [slides[0].style]. *)
Definition first_style_of (slides : list Slide) : str :=
  match slides with
  | s :: _ => style s
  | [] => []
  end.

Section WithEnv.

Variable E : env.
Variable config : Config.
Variable lower : str -> str.

(** The loop over [enumerate(slides)], from index [i] on: one image per
    slide, in order; a slide whose image fails is logged and skipped. *)
Fixpoint slide_images (first_style : str) (slides : list Slide) (i : Z)
    (slide_urls : list str) : M (list str) :=
  match slides with
  | [] => ret slide_urls
  | slide :: later =>
      let prompt := slide_prompt first_style slide in
      fun w =>
        match gemini_generate_image E config image_model prompt w with
        | (Ok image_path, w') =>
            slide_images first_style later (i + 1)%Z
              (slide_urls ++ [u "/uploads/" ++ basename image_path]) w'
        | (Raise e, w') =>
            if is_Exception e
            then slide_images first_style later (i + 1)%Z slide_urls
                   (log ERROR (u "failed to generate slide "
                               ++ str_of_Z (i + 1) ++ u ": " ++ exn_message e) w')
            else (Raise e, w')
        end
  end.


(** The [infograph] block. *)
Definition infograph_block (req : TransformationRequest)
    (response : TransformationResponse) (metadata : gmap string meta_value)
    : M (gmap string meta_value) :=
  if str_eqb (req_type req) (u "infograph") && gemini_configured config then
    let prompt := resp_content response ++ nl ++ nl ++ chinese_please in
    fun w =>
      match gemini_generate_image E config image_model prompt w with
      | (Ok image_path, w') =>
          (Ok (<["image_url" := MStr (u "/uploads/" ++ basename image_path)]>
                 metadata), w')
      | (Raise e, w') =>
          if is_Exception e
          then (Ok (<["image_error" := MStr (exn_message e)]> metadata),
                log ERROR (u "failed to generate infographic image: "
                           ++ exn_message e) w')
          else (Raise e, w')
      end
  else ret metadata.

(** The [ppt] block. *)
Definition ppt_block (req : TransformationRequest)
    (response : TransformationResponse) (metadata : gmap string meta_value)
    : M (gmap string meta_value) :=
  if str_eqb (req_type req) (u "ppt") && gemini_configured config then
    let slides := parse_ppt_slides lower (resp_content response) in
    if (len slides >? 10)%Z then
      let* _ := modify (log ERROR
        (u "ppt contains too many slides (" ++ str_of_Z (len slides)
         ++ u "), maximum allowed is 20. skipping image generation.")) in
      ret (<["image_error" := MStr too_many_slides_message]> metadata)
    else
      let* slide_urls := slide_images (first_style_of slides) slides 0%Z [] in
      ret (<["slides" := MList slide_urls]> metadata)
  else ret metadata.

(** The [insight] block: the report becomes a source of its own; an
    [Exception] raised on the way is logged and goes no further.
    Ingestion runs the chunker, hence the fuel: [None] stands for a run
    that does not end. *)
Definition insight_block (fuel : nat) (notebook_id : str)
    (req : TransformationRequest) (source_ids : list str)
    (response : TransformationResponse) (w : world)
    : option (result unit * world) :=
  if str_eqb (req_type req) (u "insight") then
    let insight_source :=
      {| src_id := None; src_notebook_id := notebook_id;
         src_name := u "洞察报告"; src_type := u "insight";
         src_content := Some (resp_content response);
         src_metadata := <["source_ids" := MList source_ids]>
                           (<["generated_at" := MStr (now_iso E)]> ∅) |} in
    let handle e w :=
      if is_Exception e
      then (Ok tt, log ERROR (u "failed to create insight source: "
                              ++ exn_message e) w)
      else (Raise e, w) in
    match create_source E insight_source with
    | Raise e => Some (handle e w)
    | Ok created =>
        match ingest_text fuel config (src_name created)
                (default [] (src_content created)) (docs w) with
        | None => None
        | Some (chunk_count, docs') =>
            let w' := set_docs docs' w in
            match update_source_chunk_count E (src_id created) chunk_count with
            | Raise e => Some (handle e w')
            | Ok _ => Some (Ok tt, w')
            end
        end
    end
  else Some (Ok tt, w).

(** The sources a request works on: those it names, in the order it
    names them, or all the stored ones when it names none. *)
Definition selected_sources (req : TransformationRequest)
    (stored : list Source) : list Source :=
  match req_source_ids req with
  | [] => stored
  | ids => select_sources ids stored
  end.

(** [req.source_ids] after the request has been completed
    ([[s.id for s in sources]] when it named none). *)
Definition request_source_ids (req : TransformationRequest)
    (stored : list Source) : list str :=
  match req_source_ids req with
  | [] => List.map (fun s => default [] (src_id s)) stored
  | ids => ids
  end.

(** The note the route stores. *)
Definition make_note (notebook_id : str) (req : TransformationRequest)
    (source_ids : list str) (response : TransformationResponse)
    (metadata : gmap string meta_value) : Note :=
  {| note_id := None; note_notebook_id := notebook_id;
     note_title := _get_title_for_type (req_type req);
     note_content := if str_eqb (req_type req) (u "infograph") then []
                     else resp_content response;
     note_type := req_type req;
     note_source_ids := source_ids; note_metadata := metadata |}.

(** The part of [transform] up to the creation of the note. *)
Definition transform_note (notebook_id : str) (req : TransformationRequest)
    : M (Note * list str * TransformationResponse) :=
  let stored := list_sources E notebook_id in
  let sources := selected_sources req stored in
  let source_ids := request_source_ids req stored in
  match sources with
  | [] => raise (mk_exn (HTTPException 400) (u "No sources available"))
  | _ =>
      let* response :=
        try_except (generate_transformation E config req sources)
          is_Exception
          (fun e =>
             let* _ := modify (log ERROR (u "Generation failed: " ++ exn_message e)) in
             raise (mk_exn (HTTPException 500)
                      (u "Generation failed: " ++ exn_message e))) in
      let metadata := request_metadata req in
      let* metadata := infograph_block req response metadata in
      let* metadata := ppt_block req response metadata in
      let note := make_note notebook_id req source_ids response metadata in
      let* created_note := lift (create_note E note) in
      ret (created_note, source_ids, response)
  end.

(** The route [POST /api/notebooks/{notebook_id}/transform].  [None]
    stands for a run that does not end (an ingestion that loops). *)
Definition transform (fuel : nat) (notebook_id : str)
    (req : TransformationRequest) (w : world) : option (result Note * world) :=
  match transform_note notebook_id req w with
  | (Raise e, w') => Some (Raise e, w')
  | (Ok (created_note, source_ids, response), w') =>
      match insight_block fuel notebook_id req source_ids response w' with
      | Some (Ok _, w'') => Some (Ok created_note, w'')
      | Some (Raise e, w'') => Some (Raise e, w'')
      | None => None
      end
  end.

End WithEnv.

End Server.

Import Server.

(* ===================================================================== *)
(** ** Scenarios: concrete inputs for the examples below *)
(* ===================================================================== *)

Module Scenario.

(** A configuration with the given chunking and no Gemini key. *)
Definition cfg (size overlap : Z) : Config :=
  {| max_sources := 5; max_context_length := 128000;
     chunk_size := size; chunk_overlap := overlap; google_api_key := [] |}.

(** The default configuration with a Gemini key. *)
Definition config_with_gemini : Config :=
  {| max_sources := 5; max_context_length := 128000;
     chunk_size := 1000; chunk_overlap := 200; google_api_key := u "key" |}.

Definition doc_of (text : string) : Document :=
  {| page_content := u text; meta_source := u "notes.txt"; meta_chunk := 0 |}.

(** A source of 2500 words, each the letter [w]. *)
Definition text_2500_words : str := concat (repeat (u "w ") 2500).

Definition a_source : Source :=
  {| src_id := Some (u "s1"); src_notebook_id := u "nb";
     src_name := u "report.txt"; src_type := u "file";
     src_content := Some (u "Sales rose in March."); src_metadata := ∅ |}.

Definition insight_request : TransformationRequest :=
  {| req_type := u "insight"; req_prompt := None; req_source_ids := [];
     req_length := u "medium"; req_format := u "markdown" |}.

Definition ppt_request : TransformationRequest :=
  {| req_type := u "ppt"; req_prompt := None; req_source_ids := [];
     req_length := u "medium"; req_format := u "markdown" |}.

(** Collaborators that all succeed, around a given provider, a given
    behaviour of the tool, and a given deck written by Gemini. *)
Definition scenario_with (llm : nat -> str -> result str) (tool : spawn)
    (deck : str) : env :=
  {| llm_reply := llm;
     gemini_reply := fun _ _ _ => Ok deck;
     imagen_reply := fun _ _ _ => Ok (u "data/uploads/infograph_1.png");
     genai_available := true;
     deepinsight := fun _ _ => tool;
     clock_ms := 1700000000000;
     build_prompt := fun req sources => Ok (u "Summarise: " ++ sources);
     list_sources := fun _ => [a_source];
     create_note := fun note => Ok note;
     create_source := fun src => Ok src;
     update_source_chunk_count := fun _ _ => Ok tt;
     now_iso := u "2025-01-01T00:00:00" |}.

Definition scenario (llm : nat -> str -> result str) (tool : spawn) : env :=
  scenario_with llm tool (u "Slide 1").

(** The executable is missing. *)
Definition tool_missing : spawn :=
  SpawnRaises (mk_exn FileNotFoundError
                 (u "[Errno 2] No such file or directory: './DeepInsight'")).




(** The tool succeeds and writes its report. *)
Definition tool_succeeds : spawn :=
  Spawned {| proc_duration := Some 30%Z; proc_returncode := 0;
             proc_stderr := [];
             proc_output := Some (Text (u "# Insight report")) |}.

Definition chatty (n : nat) (prompt : str) : result str := Ok (u "An analysis.").

(** A deck of [n] slides, each opened by the inline marker. *)
Definition deck_of (n : nat) : str :=
  concat (repeat (u "// 叙事目标: point
") n).

End Scenario.

Import Scenario.

(* ===================================================================== *)
(** ** app/agent.py: the chat *)
(* ===================================================================== *)

Module Chat.

(** The fields of [ChatMessage] the chat reads. *)
Record ChatMessage := {
  msg_role : str;
  msg_content : str
}.

(** [ChatResponse]; its metadata holds one integer,
    [{"docs_retrieved": len(docs)}]. *)
Record ChatResponse := {
  chat_message : str;
  chat_sources : list SourceSummary;
  chat_session_id : str;
  chat_metadata : gmap string Z
}.

(** The lines of the context block, documents numbered from [i].  Every
    stored document carries its source, which [ingest_text] sets, so the
    test ["source" in doc.metadata] holds. *)
Fixpoint context_parts (i : Z) (docs : list Document) : list str :=
  match docs with
  | [] => []
  | doc :: later =>
      (u "[来源 " ++ str_of_Z i ++ u "] " ++ page_content doc ++ nl)
      :: (u "来源: " ++ meta_source doc ++ nl ++ nl)
      :: context_parts (i + 1)%Z later
  end.

(** The context block: empty when nothing was retrieved. *)
Definition context_of (docs : list Document) : str :=
  match docs with
  | [] => []
  | _ => concat ((u "来源中的相关信息：" ++ nl ++ nl) :: context_parts 1%Z docs)
  end.

(** One line of the history block. *)
Definition history_line (msg : ChatMessage) : str :=
  (if str_eqb (msg_role msg) (u "user") then u "用户" else u "助手")
  ++ u ": " ++ msg_content msg ++ nl.

(** The history block, built from [history[-10:]]. *)
Definition history_text (history : list ChatMessage) : str :=
  concat (List.map history_line (py_slice history (-10) (len history))).

(** [source_name not in seen]. *)
Definition not_seen (source_name : str) (seen : list str) : bool :=
  negb (existsb (str_eqb source_name) seen).

(** The loop that builds the source summaries: a source is listed the
    first time one of its chunks comes up, and an empty name never. *)
Fixpoint source_loop (docs : list Document) (seen : list str)
    : list SourceSummary :=
  match docs with
  | [] => []
  | doc :: later =>
      let source_name := meta_source doc in
      if negb (str_eqb source_name []) && not_seen source_name seen
      then {| sum_id := source_name; sum_name := source_name;
              sum_type := u "file" |}
           :: source_loop later (source_name :: seen)
      else source_loop later seen
  end.

Section WithEnv.

Variable E : env.
Variable config : Config.
Variable lower : str -> str.

(** [chat_system_prompt().format(history=..., context=..., question=...)],
    of the module [app.prompt], which is not among the sources. *)
Variable chat_prompt : str -> str -> str -> result str.

(** [Agent.chat]. *)
Definition chat (notebook_id message : str) (history : list ChatMessage)
    : M ChatResponse :=
  let* docs := search_store lower message (max_sources config) in
  let* prompt :=
    lift (chat_prompt (history_text history) (context_of docs) message) in
  let* response_text := _generate_text E prompt in
  ret {| chat_message := response_text;
         chat_sources := source_loop docs [];
         chat_session_id := notebook_id;
         chat_metadata := {["docs_retrieved" := len docs]} |}.

End WithEnv.

End Chat.

Import Chat.

(* ===================================================================== *)
(** ** Notions used to state further properties *)
(* ===================================================================== *)

Module Counting.

(** The number of windows the loop cuts from [n] units when
    [0 <= overlap < size]: none from nothing, one when everything fits,
    and otherwise [(n - overlap) / (size - overlap)] rounded up. *)
Definition expected_chunks (n size overlap : Z) : Z :=
  if (n =? 0)%Z then 0%Z
  else if (n <=? size)%Z then 1%Z
  else ((n - overlap + (size - overlap) - 1) / (size - overlap))%Z.

(** The number of units in a chunk: its code points in CJK mode, its
    words otherwise. *)
Definition chunk_units (cjk : bool) (chunk : str) : nat :=
  if cjk then length chunk else length (split chunk).

(** The units of a chunk, one by one. *)
Definition units_in (cjk : bool) (chunk : str) : list str :=
  if cjk then List.map (fun c => [c]) chunk else split chunk.

(** A window of at least one and at most [size] units. *)
Definition window_ok {A} (size : Z) (w : list A) : Prop :=
  (1 <= len w <= size)%Z.

(** A call that leaves the chunk collection, the files and the record of
    image generation as it found them. *)
Definition untouched (w w' : world) : Prop :=
  docs w' = docs w /\ files w' = files w /\
  image_requests w' = image_requests w /\ image_prompts w' = image_prompts w.

(** The source bears the id [sid]. *)
Definition bears (sid : str) (s : Source) : bool :=
  match src_id s with
  | Some i => str_eqb i sid
  | None => false
  end.

End Counting.

Import Counting.

Module Scenario2.

(** A chat prompt that sets the three blocks one after the other. *)
Definition plain_chat_prompt (history context question : str) : result str :=
  Ok (history ++ u "---" ++ context ++ u "---" ++ question).

Definition message_of (role text : string) : ChatMessage :=
  {| msg_role := u role; msg_content := u text |}.

Definition doc_from (source text : string) (i : Z) : Document :=
  {| page_content := u text; meta_source := u source; meta_chunk := i |}.

Definition summary_request : TransformationRequest :=
  {| req_type := u "summary"; req_prompt := None; req_source_ids := [];
     req_length := u "medium"; req_format := u "markdown" |}.


(** Collaborators among which the primary provider refuses every
    prompt. *)
Definition provider_fails : env :=
  scenario (fun _ _ => Raise (mk_exn RuntimeError (u "rate limit")))
    tool_missing.


(** Collaborators among which the image model fails twice before it
    answers. *)
Definition flaky_images : env :=
  {| llm_reply := chatty;
     gemini_reply := fun _ _ _ => Ok (u "Slide 1");
     imagen_reply := fun n _ _ =>
       if (n <? 2)%nat then Raise (mk_exn RuntimeError (u "overloaded"))
       else Ok (u "data/uploads/infograph_3.png");
     genai_available := true;
     deepinsight := fun _ _ => tool_missing;
     clock_ms := 1700000000000;
     build_prompt := fun req sources => Ok (u "Summarise: " ++ sources);
     list_sources := fun _ => [a_source];
     create_note := fun note => Ok note;
     create_source := fun src => Ok src;
     update_source_chunk_count := fun _ _ => Ok tt;
     now_iso := u "2025-01-01T00:00:00" |}.

End Scenario2.

Import Scenario2.

(* ===================================================================== *)
(** * Properties *)
(* ===================================================================== *)

(** ** Sanity checks of the embedding *)

Example u_ascii : u "a b" = [97; 32; 98]%N.
Proof. reflexivity. Qed.

Example u_cjk : u "介绍" = [20171; 32461]%N.
Proof. reflexivity. Qed.

Example split_example : split (u "  a  bc
 d ") = [u "a"; u "bc"; u "d"].
Proof. reflexivity. Qed.

Example split_on_example :
  split_on (u "--") (u "a--b---c") = [u "a"; u "b"; u "-c"].
Proof. reflexivity. Qed.

Example py_slice_example :
  py_slice [1; 2; 3; 4; 5] (-2) 10 = [4; 5] /\ py_slice [1; 2; 3] 1 2 = [2].
Proof. split; reflexivity. Qed.

Example split_words_example :
  _split_text 10 (cfg 3 1) (u "a b c d e f")
  = Some [u "a b c"; u "c d e"; u "e f"].
Proof. reflexivity. Qed.

Example split_cjk_example :
  _split_text 10 (cfg 3 1) (u "介绍文档内容a")
  = Some [u "介绍文"; u "文档内"; u "内容a"].
Proof. reflexivity. Qed.

Example split_empty_example : _split_text 1 (cfg 3 1) [] = Some [].
Proof. reflexivity. Qed.

(** Two adjacent headings: the first match runs over the line break and
    takes the second heading with it. *)
Example finditer_adjacent_headings :
  finditer slide_pattern (u "Slide 1
Slide 2
Slide 3") = [(0, 15); (16, 23)]%nat.
Proof. vm_compute. reflexivity. Qed.

Example finditer_heading_forms :
  slide_starts (u "## Slide 1: Title
// narrative goal: x
### 幻灯片 2
body
第12张幻灯片 3
Slide x
a Slide 7") = [0; 39; 54]%nat.
Proof. vm_compute. reflexivity. Qed.

Example score_example :
  score_doc ascii_lower (u "hello world") (doc_of "Hello there")
  = 0x1.85d1745d1745dp+2%float.
Proof. vm_compute. reflexivity. Qed.

Example ranked_example :
  List.map snd
    (ranked ascii_lower (u "介绍 hello")
       [doc_of "q"; doc_of "hello x"; doc_of "lo"; doc_of "hello y"])
  = [6.75; 6.75; 2.875; 1]%float.
Proof. vm_compute. reflexivity. Qed.

(** The tool succeeds: its report is returned and the file is gone. *)
Example call_deepinsight_success :
  let r := _call_deepinsight (scenario chatty tool_succeeds) (u "summary")
             empty_world in
  fst r = Ok (u "# Insight report") /\ files (snd r) = ∅.
Proof. vm_compute. split; reflexivity. Qed.

(** ** Slices and windows *)

Section SliceFacts.

Context {A : Type}.
Implicit Types l : list A.

Lemma norm_index_in_range (n i : Z) :
  (0 <= i <= n)%Z -> norm_index n i = i.
Proof.
  intros H. unfold norm_index.
  destruct (i <? 0)%Z eqn:Hi; [apply Z.ltb_lt in Hi; lia | lia].
Qed.

Lemma py_slice_in_range l (i j : nat) :
  (i <= j <= length l)%nat ->
  py_slice l (Z.of_nat i) (Z.of_nat j) = firstn (j - i) (skipn i l).
Proof.
  intros H. unfold py_slice, len.
  rewrite !norm_index_in_range by lia.
  f_equal; [lia | f_equal; lia].
Qed.

Lemma py_slice_prefix l (j : nat) :
  (j <= length l)%nat -> py_slice l 0 (Z.of_nat j) = firstn j l.
Proof.
  intros H. change 0%Z with (Z.of_nat 0).
  rewrite py_slice_in_range by lia.
  simpl. f_equal. lia.
Qed.

(** Whatever its bounds, a slice is a run of consecutive elements: a
    prefix of a suffix. *)
Lemma py_slice_is_firstn_skipn l (i j : Z) :
  exists a b, py_slice l i j = firstn b (skipn a l).
Proof. unfold py_slice. eauto. Qed.

Lemma Forall_py_slice (P : A -> Prop) l (i j : Z) :
  Forall P l -> Forall P (py_slice l i j).
Proof.
  intros H. unfold py_slice.
  apply Forall_take, Forall_drop, H.
Qed.

Lemma reassemble_snoc (overlap : nat) (chunks : list (list A)) (c : list A) :
  chunks <> [] ->
  reassemble overlap (chunks ++ [c]) = reassemble overlap chunks ++ skipn overlap c.
Proof.
  destruct chunks as [|c0 rest]; [congruence|]. intros _.
  simpl. rewrite List.map_app, concat_app. simpl.
  rewrite app_nil_r, app_assoc. reflexivity.
Qed.

(** Running longer changes nothing once the loop has ended. *)
Lemma window_loop_more_fuel (units : list A) (size overlap : Z) :
  forall fuel fuel' i chunks r,
    window_loop fuel units size overlap i chunks = Some r ->
    (fuel <= fuel')%nat ->
    window_loop fuel' units size overlap i chunks = Some r.
Proof.
  induction fuel as [|fuel IH]; intros fuel' i chunks r Hr Hle; [discriminate|].
  destruct fuel' as [|fuel']; [lia|].
  simpl in *.
  destruct (i <? len units)%Z; [|exact Hr].
  destruct (Z.min (i + size) (len units) >=? len units)%Z; [exact Hr|].
  apply IH with (fuel' := fuel') in Hr; [exact Hr | lia].
Qed.

Lemma window_loop_deterministic (units : list A) (size overlap : Z) :
  forall f1 f2 i chunks r1 r2,
    window_loop f1 units size overlap i chunks = Some r1 ->
    window_loop f2 units size overlap i chunks = Some r2 ->
    r1 = r2.
Proof.
  intros f1 f2 i chunks r1 r2 H1 H2.
  apply window_loop_more_fuel with (fuel' := Nat.max f1 f2) in H1; [|lia].
  apply window_loop_more_fuel with (fuel' := Nat.max f1 f2) in H2; [|lia].
  congruence.
Qed.

(** Every chunk the loop appends is a slice of the units. *)
Lemma window_loop_Forall (Q : list A -> Prop) (units : list A) (size overlap : Z) :
  (forall i j, Q (py_slice units i j)) ->
  forall fuel i chunks r,
    Forall Q chunks ->
    window_loop fuel units size overlap i chunks = Some r ->
    Forall Q r.
Proof.
  intros HQ. induction fuel as [|fuel IH]; intros i chunks r Hc Hr; [discriminate|].
  simpl in Hr.
  destruct (i <? len units)%Z; [|congruence].
  assert (Hc' : Forall Q (chunks ++ [py_slice units i (Z.min (i + size) (len units))])).
  { apply Forall_app. split; [exact Hc | constructor; [apply HQ | constructor]]. }
  destruct (Z.min (i + size) (len units) >=? len units)%Z; [congruence|].
  eapply IH; eassumption.
Qed.

(** With [overlap >= size > 0] and more units than fit in one window, the
    index never moves right of 0 and no window reaches the end: the loop
    outlasts every fuel. *)
Lemma window_loop_stuck (units : list A) (size overlap : Z) :
  (0 < size)%Z -> (size <= overlap)%Z -> (size < len units)%Z ->
  forall fuel i chunks,
    (i <= 0)%Z -> window_loop fuel units size overlap i chunks = None.
Proof.
  intros Hs Ho Hn. induction fuel as [|fuel IH]; intros i chunks Hi; [reflexivity|].
  simpl.
  destruct (i <? len units)%Z eqn:E1; [|apply Z.ltb_ge in E1; lia].
  destruct (Z.min (i + size) (len units) >=? len units)%Z eqn:E2.
  - apply Z.geb_le in E2. lia.
  - apply IH. lia.
Qed.

(** With [0 <= overlap < size] the loop ends, and its chunks put back
    together give the units. *)
Lemma window_loop_reassembles (units : list A) (size overlap : Z) :
  (0 <= overlap < size)%Z ->
  forall fuel (i : nat) chunks,
    (length units - i < fuel)%nat ->
    (i < length units)%nat ->
    (i = 0%nat /\ chunks = [] \/
     chunks <> [] /\
     reassemble (Z.to_nat overlap) chunks = firstn (i + Z.to_nat overlap) units /\
     (i + Z.to_nat overlap < length units)%nat) ->
    exists r,
      window_loop fuel units size overlap (Z.of_nat i) chunks = Some r /\
      reassemble (Z.to_nat overlap) r = units.
Proof.
  intros Hov. induction fuel as [|fuel IH]; intros i chunks Hfuel Hi Hinv; [lia|].
  simpl. unfold len.
  destruct (Z.of_nat i <? Z.of_nat (length units))%Z eqn:E1;
    [|apply Z.ltb_ge in E1; lia].
  set (n := length units) in *.
  set (ov := Z.to_nat overlap) in *.
  set (e := Nat.min (i + Z.to_nat size) n).
  assert (He : Z.min (Z.of_nat i + size) (Z.of_nat n) = Z.of_nat e) by (unfold e; lia).
  rewrite He.
  assert (Hslice : py_slice units (Z.of_nat i) (Z.of_nat e)
                   = firstn (e - i) (skipn i units)).
  { apply py_slice_in_range. unfold e. fold n. lia. }
  rewrite Hslice.
  assert (Hre : reassemble ov (chunks ++ [firstn (e - i) (skipn i units)])
                = firstn e units).
  { destruct Hinv as [[-> ->] | (Hne & Hre & Hlt)].
    - simpl. rewrite app_nil_r. f_equal. lia.
    - rewrite reassemble_snoc by exact Hne. rewrite Hre.
      rewrite skipn_firstn_comm, skipn_skipn.
      replace (ov + i)%nat with (i + ov)%nat by lia.
      rewrite take_take_drop. f_equal. unfold e. lia. }
  destruct (Z.of_nat e >=? Z.of_nat n)%Z eqn:E2.
  - apply Z.geb_le in E2.
    eexists. split; [reflexivity|].
    rewrite Hre. apply firstn_all2. fold n. lia.
  - assert (E2' : (Z.of_nat e < Z.of_nat n)%Z).
    { destruct (Z.geb_spec (Z.of_nat e) (Z.of_nat n)); [discriminate | lia]. }
    replace (Z.of_nat i + (size - overlap))%Z
      with (Z.of_nat (i + Z.to_nat size - ov)) by (unfold ov; lia).
    apply IH.
    + fold n. unfold ov. lia.
    + fold n. unfold e, ov in *. lia.
    + right. split; [|split].
      * destruct chunks; discriminate.
      * rewrite Hre. f_equal. unfold e, ov in *. lia.
      * fold n. unfold e, ov in *. lia.
Qed.

Lemma window_loop_from_start (units : list A) (size overlap : Z) :
  (0 <= overlap < size)%Z ->
  exists r,
    (forall fuel, (length units < fuel)%nat ->
       window_loop fuel units size overlap 0 [] = Some r) /\
    reassemble (Z.to_nat overlap) r = units.
Proof.
  intros Hov.
  destruct units as [|x units'] eqn:Hu.
  - exists []. split; [|reflexivity].
    intros [|fuel] Hf; [simpl in Hf; lia | reflexivity].
  - rewrite <- Hu.
    destruct (window_loop_reassembles units size overlap Hov
                (S (length units)) 0 []) as (r & Hr & Hre).
    + lia.
    + subst units. simpl. lia.
    + left. split; reflexivity.
    + exists r. split; [|exact Hre].
      intros fuel Hf. eapply window_loop_more_fuel; [exact Hr | lia].
Qed.

End SliceFacts.

(** ** Words: [split] and [join] *)

Lemma split_go_words (s : str) :
  forall cur,
    Forall (fun c => is_space c = false) cur ->
    Forall is_word (split_go s cur).
Proof.
  induction s as [|c s IH]; intros cur Hcur; simpl.
  - destruct cur as [|x cur']; constructor; [|constructor].
    split.
    + intros H. apply (f_equal (@length _)) in H.
      rewrite length_rev in H. discriminate.
    + apply Forall_rev. exact Hcur.
  - destruct (is_space c) eqn:Hc.
    + destruct cur as [|x cur'].
      * apply IH. constructor.
      * constructor; [|apply IH; constructor].
        split.
        -- intros H. apply (f_equal (@length _)) in H.
           rewrite length_rev in H. discriminate.
        -- apply Forall_rev. exact Hcur.
    + apply IH. constructor; assumption.
Qed.

Lemma split_words (s : str) : Forall is_word (split s).
Proof. apply split_go_words. constructor. Qed.

Lemma split_go_word_prefix (w : str) :
  Forall (fun c => is_space c = false) w ->
  forall s cur, split_go (w ++ s) cur = split_go s (rev w ++ cur).
Proof.
  induction w as [|c w IH]; intros Hw s cur; [reflexivity|].
  inversion Hw as [|? ? Hc Hw']; subst.
  simpl. rewrite Hc, IH by exact Hw'.
  rewrite <- app_assoc. reflexivity.
Qed.

(** Splitting what [' '.join] built gives the words back. *)
Lemma split_join (ws : list str) :
  Forall is_word ws -> split (join space ws) = ws.
Proof.
  unfold split.
  induction ws as [|w ws IH]; intros Hws; [reflexivity|].
  inversion Hws as [|? ? [Hne Hw] Hws']; subst.
  destruct ws as [|w2 ws].
  - simpl. rewrite <- (app_nil_r w) at 1.
    rewrite split_go_word_prefix by exact Hw.
    rewrite app_nil_r. simpl.
    destruct (rev w) eqn:Hr.
    + apply (f_equal (@length _)) in Hr. rewrite length_rev in Hr.
      destruct w; [congruence | discriminate].
    + rewrite <- Hr, rev_involutive. reflexivity.
  - change (join space (w :: w2 :: ws))
      with (w ++ space ++ join space (w2 :: ws)).
    rewrite split_go_word_prefix by exact Hw.
    rewrite app_nil_r. unfold space at 1. simpl app.
    cbn [split_go]. change (is_space 32%N) with true. cbv iota.
    destruct (rev w) eqn:Hr.
    + apply (f_equal (@length _)) in Hr. rewrite length_rev in Hr.
      destruct w; [congruence | discriminate].
    + rewrite <- Hr, rev_involutive. f_equal. apply IH. exact Hws'.
Qed.

(** ** The chunker *)

Lemma split_text_deterministic (c : Config) (text : str) :
  forall f1 f2 r1 r2,
    _split_text f1 c text = Some r1 ->
    _split_text f2 c text = Some r2 ->
    r1 = r2.
Proof.
  unfold _split_text. intros f1 f2 r1 r2 H1 H2.
  destruct (cjk_dominant text).
  - eapply window_loop_deterministic; eassumption.
  - destruct (window_loop f1 _ _ _ _ _) as [a1|] eqn:E1; [|discriminate].
    destruct (window_loop f2 _ _ _ _ _) as [a2|] eqn:E2; [|discriminate].
    simpl in *.
    assert (a1 = a2) by (eapply window_loop_deterministic; eassumption).
    congruence.
Qed.

(** With [overlap >= chunk_size > 0], a text of more than [chunk_size]
    units is never split: the loop does not end. *)
Lemma split_text_diverges (c : Config) (text : str) :
  (0 < chunk_size c)%Z ->
  (chunk_size c <= chunk_overlap c)%Z ->
  (chunk_size c < len (units_of text))%Z ->
  forall fuel, _split_text fuel c text = None.
Proof.
  intros Hs Ho Hn fuel.
  unfold _split_text, units_of, effective_size, effective_overlap in *.
  destruct (chunk_size c <=? 0)%Z eqn:E1; [apply Z.leb_le in E1; lia|].
  destruct (chunk_overlap c <? 0)%Z eqn:E2; [apply Z.ltb_lt in E2; lia|].
  destruct (cjk_dominant text).
  - apply window_loop_stuck; try lia.
    unfold len in *. rewrite length_map in Hn. exact Hn.
  - assert (H : window_loop fuel (split text) (chunk_size c) (chunk_overlap c)
                 0%Z [] = None) by (apply window_loop_stuck; lia).
    rewrite H. reflexivity.
Qed.

(** C1.  The configuration [chunk_size = 1], [chunk_overlap = 1] and the
    two-word text ["a b"]: the step [chunk_size - chunk_overlap] is 0,
    nothing rejects or clamps it, and [_split_text] never returns,
    whatever the fuel. *)
Theorem split_text_zero_step_never_returns :
  forall fuel, _split_text fuel (cfg 1 1) (u "a b") = None.
Proof.
  intros fuel. apply split_text_diverges.
  - simpl. lia.
  - simpl. lia.
  - vm_compute. reflexivity.
Qed.

Lemma split_go_length (s : str) :
  forall cur,
    (length (split_go s cur) <= length s + (match cur with [] => 0 | _ => 1 end))%nat.
Proof.
  induction s as [|c s IH]; intros cur; simpl.
  - destruct cur; simpl; lia.
  - destruct (is_space c).
    + destruct cur; simpl.
      * specialize (IH []). simpl in IH. lia.
      * specialize (IH []). simpl in IH. lia.
    + specialize (IH (c :: cur)). simpl in IH. lia.
Qed.

(** A text has no more words than code points. *)
Lemma split_length (s : str) : (length (split s) <= length s)%nat.
Proof.
  pose proof (split_go_length s []) as H. simpl in H. unfold split. lia.
Qed.

(** C4, as the code has it.  For every text, every [chunk_size > 0] and
    every [0 <= overlap < chunk_size], the split ends, and its chunks with
    the overlaps removed give back the units they were cut from: the text
    itself, code point for code point, in CJK mode; in word mode the
    sequence of its words, each chunk read as the words it joins. *)
Theorem split_text_reconstructs_units (c : Config) (text : str) :
  (0 < chunk_size c)%Z ->
  (0 <= chunk_overlap c < chunk_size c)%Z ->
  exists chunks,
    (forall fuel, (length text < fuel)%nat ->
       _split_text fuel c text = Some chunks) /\
    (cjk_dominant text = true ->
       reassemble (Z.to_nat (chunk_overlap c)) chunks = text) /\
    (cjk_dominant text = false ->
       reassemble (Z.to_nat (chunk_overlap c)) (List.map split chunks)
       = split text).
Proof.
  intros Hs Ho.
  unfold _split_text, effective_size, effective_overlap.
  destruct (chunk_size c <=? 0)%Z eqn:E1; [apply Z.leb_le in E1; lia|].
  destruct (chunk_overlap c <? 0)%Z eqn:E2; [apply Z.ltb_lt in E2; lia|].
  destruct (cjk_dominant text) eqn:Hmode.
  - destruct (window_loop_from_start text (chunk_size c) (chunk_overlap c) Ho)
      as (r & Hr & Hre).
    exists r. split; [exact Hr|]. split; [intros _; exact Hre | discriminate].
  - destruct (window_loop_from_start (split text) (chunk_size c)
                (chunk_overlap c) Ho) as (r & Hr & Hre).
    exists (List.map (join space) r). split; [|split; [discriminate|]].
    + intros fuel Hf. rewrite Hr; [reflexivity|].
      pose proof (split_length text). lia.
    + intros _. rewrite List.map_map.
      assert (Hw : Forall (Forall is_word) r).
      { destruct r as [|r0 rs] eqn:Hr0; [constructor|]. rewrite <- Hr0 in *.
        eapply (window_loop_Forall (Forall is_word)) with (chunks := []).
        - intros i j. apply Forall_py_slice, split_words.
        - constructor.
        - apply (Hr (S (length (split text)))). lia. }
      rewrite (map_ext_Forall _ id); [rewrite List.map_id; exact Hre|].
      eapply Forall_impl; [exact Hw|].
      intros ws Hws. apply split_join. exact Hws.
Qed.

Lemma split_text_reconstructs_units_witness :
  (0 < chunk_size (cfg 3 1))%Z /\
  (0 <= chunk_overlap (cfg 3 1) < chunk_size (cfg 3 1))%Z /\
  exists chunks,
    (forall fuel, (length (u "a b c d e f") < fuel)%nat ->
       _split_text fuel (cfg 3 1) (u "a b c d e f") = Some chunks) /\
    (cjk_dominant (u "a b c d e f") = true ->
       reassemble (Z.to_nat (chunk_overlap (cfg 3 1))) chunks = u "a b c d e f") /\
    (cjk_dominant (u "a b c d e f") = false ->
       reassemble (Z.to_nat (chunk_overlap (cfg 3 1))) (List.map split chunks)
       = split (u "a b c d e f")).
Proof.
  split; [simpl; lia|]. split; [simpl; lia|].
  apply (split_text_reconstructs_units (cfg 3 1) (u "a b c d e f"));
    simpl; lia.
Defined.

(** C4 as the specification states it fails in word mode: the text
    ["a  b"] (two spaces), [chunk_size = 10], [overlap = 0] is split into
    the single chunk ["a b"], and no run of the split gives chunks whose
    concatenation is the text. *)
Lemma split_text_does_not_keep_whitespace :
  u "a  b" <> [] /\
  _split_text 2 (cfg 10 0) (u "a  b") = Some [u "a b"] /\
  ~ (exists fuel chunks,
       _split_text fuel (cfg 10 0) (u "a  b") = Some chunks /\
       reassemble 0 chunks = u "a  b").
Proof.
  split; [discriminate|]. split; [reflexivity|].
  intros (fuel & chunks & Hsplit & Hre).
  assert (H2 : _split_text 2 (cfg 10 0) (u "a  b") = Some [u "a b"])
    by reflexivity.
  pose proof (split_text_deterministic _ _ _ _ _ _ Hsplit H2) as ->.
  vm_compute in Hre. discriminate.
Qed.

(** One turn of the window loop that goes on, and one that ends it. *)
Lemma window_loop_turn {A} (units : list A) (size overlap i : Z)
    (chunks : list (list A)) (fuel : nat) :
  (i < len units)%Z -> (i + size < len units)%Z ->
  window_loop (S fuel) units size overlap i chunks
  = window_loop fuel units size overlap (i + (size - overlap))%Z
      (chunks ++ [py_slice units i (i + size)%Z]).
Proof.
  intros H1 H2. simpl.
  destruct (i <? len units)%Z eqn:E1; [|apply Z.ltb_ge in E1; lia].
  rewrite Z.min_l by lia.
  destruct (i + size >=? len units)%Z eqn:E2; [apply Z.geb_le in E2; lia|].
  reflexivity.
Qed.

Lemma window_loop_last_turn {A} (units : list A) (size overlap i : Z)
    (chunks : list (list A)) (fuel : nat) :
  (i < len units)%Z -> (len units <= i + size)%Z ->
  window_loop (S fuel) units size overlap i chunks
  = Some (chunks ++ [py_slice units i (len units)]).
Proof.
  intros H1 H2. simpl.
  destruct (i <? len units)%Z eqn:E1; [|apply Z.ltb_ge in E1; lia].
  rewrite Z.min_r by lia.
  destruct (len units >=? len units)%Z eqn:E2; [reflexivity|].
  destruct (Z.geb_spec (len units) (len units)); [discriminate | lia].
Qed.

(** The three windows cut from 2500 units with [chunk_size = 1000] and
    [overlap = 200]. *)
Lemma window_loop_2500 {A} (units : list A) (fuel : nat) :
  length units = 2500%nat -> (3 <= fuel)%nat ->
  window_loop fuel units 1000 200 0 []
  = Some [py_slice units 0 1000; py_slice units 800 1800;
          py_slice units 1600 2500].
Proof.
  intros Hn Hf.
  assert (Hlen : len units = 2500%Z) by (unfold len; rewrite Hn; reflexivity).
  destruct fuel as [|[|[|fuel]]]; try lia.
  rewrite window_loop_turn by (rewrite Hlen; lia).
  rewrite window_loop_turn by (rewrite Hlen; lia).
  rewrite window_loop_last_turn by (rewrite Hlen; lia).
  rewrite Hlen. reflexivity.
Qed.

Lemma split_text_2500_words (text : str) (fuel : nat) :
  length (split text) = 2500%nat ->
  cjk_dominant text = false ->
  (3 <= fuel)%nat ->
  _split_text fuel (cfg 1000 200) text
  = Some [join space (py_slice (split text) 0 1000);
          join space (py_slice (split text) 800 1800);
          join space (py_slice (split text) 1600 2500)].
Proof.
  intros Hn Hmode Hf. unfold _split_text. rewrite Hmode.
  change (effective_size (cfg 1000 200)) with 1000%Z.
  change (effective_overlap (cfg 1000 200)) with 200%Z.
  rewrite window_loop_2500 by assumption. reflexivity.
Qed.

(** C5, as the code has it.  An ingested source of 2500 words that is
    not CJK-dominant, with [chunk_size = 1000] and [overlap = 200], gives
    exactly 3 chunks, the word windows [0,1000), [800,1800) and
    [1600,2500); the third window reaches the end of the text and the
    loop stops there. *)
Theorem ingest_2500_words_gives_three_chunks
    (source_name text : str) (docs : store) (fuel : nat) :
  length (split text) = 2500%nat ->
  cjk_dominant text = false ->
  (3 <= fuel)%nat ->
  let words := split text in
  let chunks := [join space (py_slice words 0 1000);
                 join space (py_slice words 800 1800);
                 join space (py_slice words 1600 2500)] in
  _split_text fuel (cfg 1000 200) text = Some chunks /\
  ingest_text fuel (cfg 1000 200) source_name text docs
  = Some (3%Z, docs ++ make_docs source_name 0 chunks).
Proof.
  intros Hn Hmode Hf words chunks.
  unfold ingest_text.
  rewrite split_text_2500_words by assumption.
  split; reflexivity.
Qed.

Lemma ingest_2500_words_gives_three_chunks_witness :
  length (split text_2500_words) = 2500%nat /\
  cjk_dominant text_2500_words = false /\
  (3 <= 3)%nat /\
  (let words := split text_2500_words in
   let chunks := [join space (py_slice words 0 1000);
                  join space (py_slice words 800 1800);
                  join space (py_slice words 1600 2500)] in
   _split_text 3 (cfg 1000 200) text_2500_words = Some chunks /\
   ingest_text 3 (cfg 1000 200) (u "doc") text_2500_words []
   = Some (3%Z, [] ++ make_docs (u "doc") 0 chunks)).
Proof.
  split; [vm_compute; reflexivity|].
  split; [vm_compute; reflexivity|].
  split; [lia|].
  apply (ingest_2500_words_gives_three_chunks (u "doc") text_2500_words [] 3).
  - vm_compute. reflexivity.
  - vm_compute. reflexivity.
  - lia.
Defined.

(** C5 as the specification states it fails: on a source of 2500 words
    no run of the split gives 4 chunks. *)
Lemma ingest_2500_words_not_four_chunks :
  length (split text_2500_words) = 2500%nat /\
  cjk_dominant text_2500_words = false /\
  ~ (exists fuel chunks,
       _split_text fuel (cfg 1000 200) text_2500_words = Some chunks /\
       length chunks = 4%nat).
Proof.
  assert (Hn : length (split text_2500_words) = 2500%nat)
    by (vm_compute; reflexivity).
  assert (Hm : cjk_dominant text_2500_words = false)
    by (vm_compute; reflexivity).
  split; [exact Hn|]. split; [exact Hm|].
  intros (fuel & chunks & Hsplit & Hlen).
  pose proof (split_text_2500_words text_2500_words 3 Hn Hm (le_n 3)) as H3.
  pose proof (split_text_deterministic _ _ _ _ _ _ Hsplit H3) as ->.
  discriminate Hlen.
Qed.

(** ** Binary64 comparison *)

(** [<] on binary64 numbers is asymmetric, and over numbers that are not
    NaN its negation is transitive.  Both are read off the specification
    of the comparison. *)
Lemma SFltb_asym (a b : spec_float) : SFltb a b = true -> SFltb b a = false.
Proof.
  unfold SFltb.
  destruct a as [sa| sa| |sa ma ea], b as [sb| sb| |sb mb eb]; simpl;
    repeat match goal with s : bool |- _ => destruct s end;
    simpl; try discriminate; try reflexivity.
  all: rewrite ?Pos.compare_cont_spec.
  all: destruct (Z.compare_spec ea eb); destruct (Z.compare_spec eb ea);
       try lia; simpl; try discriminate; try reflexivity.
  all: destruct (Pos.compare_spec ma mb); destruct (Pos.compare_spec mb ma);
       try lia; simpl; try discriminate; reflexivity.
Qed.

Lemma SFltb_left_ordered (a b : spec_float) : SFltb a b = true -> SFordered b.
Proof.
  unfold SFltb, SFordered. intros H ->.
  destruct a; simpl in H; discriminate.
Qed.

Lemma SFltb_negtrans (a b c : spec_float) :
  SFordered a -> SFordered b -> SFordered c ->
  SFltb a b = false -> SFltb b c = false -> SFltb a c = false.
Proof.
  unfold SFltb, SFordered. intros Ha Hb Hc.
  destruct a as [sa| sa| |sa ma ea]; try congruence;
  destruct b as [sb| sb| |sb mb eb]; try congruence;
  destruct c as [sc| sc| |sc mc ec]; try congruence; clear Ha Hb Hc; simpl;
    repeat match goal with s : bool |- _ => destruct s end;
    simpl; try discriminate; try reflexivity.
  all: rewrite ?Pos.compare_cont_spec.
  all: destruct (Z.compare_spec ea eb); simpl; try discriminate;
       destruct (Z.compare_spec eb ec); simpl; try discriminate;
       destruct (Z.compare_spec ea ec); simpl; try reflexivity; try lia.
  all: try (destruct (Pos.compare_spec ma mb); simpl; try discriminate).
  all: try (destruct (Pos.compare_spec mb mc); simpl; try discriminate).
  all: try (destruct (Pos.compare_spec ma mc); simpl; try reflexivity).
  all: try lia; try discriminate; try reflexivity.
  all: intros; try discriminate; try lia.
Qed.

Lemma ltb_asym (x y : float) : (x <? y)%float = true -> (y <? x)%float = false.
Proof. rewrite !FloatAxioms.ltb_spec. apply SFltb_asym. Qed.

Lemma positive_score_ordered (s : float) :
  positive_score s -> SFordered (Prim2SF s).
Proof.
  unfold positive_score. rewrite FloatAxioms.ltb_spec. apply SFltb_left_ordered.
Qed.

Lemma ltb_negtrans (x y z : float) :
  positive_score x -> positive_score y -> positive_score z ->
  (x <? y)%float = false -> (y <? z)%float = false -> (x <? z)%float = false.
Proof.
  intros Hx Hy Hz. rewrite !FloatAxioms.ltb_spec.
  apply SFltb_negtrans; apply positive_score_ordered; assumption.
Qed.

(** ** The stable descending sort *)

Section SortFacts.

Implicit Types x y : Document * float.
Implicit Types l : list (Document * float).

Lemma insert_desc_perm x l : Permutation (insert_desc x l) (x :: l).
Proof.
  induction l as [|y l IH]; simpl; [reflexivity|].
  destruct (snd x <? snd y)%float; [|reflexivity].
  rewrite IH. apply perm_swap.
Qed.

Lemma sort_desc_perm l : Permutation (sort_desc l) l.
Proof.
  induction l as [|x l IH]; simpl; [reflexivity|].
  rewrite insert_desc_perm, IH. reflexivity.
Qed.

Lemma sort_desc_length l : length (sort_desc l) = length l.
Proof. apply Permutation_length, sort_desc_perm. Qed.

Lemma insert_desc_sublist x l : sublist l (insert_desc x l).
Proof.
  induction l as [|y l IH]; simpl; [apply sublist_nil_l|].
  destruct (snd x <? snd y)%float.
  - apply sublist_skip, IH.
  - apply sublist_cons. reflexivity.
Qed.

(** An inserted entry lands ahead of every entry that does not beat it. *)
Lemma insert_desc_ahead x y l :
  In y l -> (snd x <? snd y)%float = false -> precedes x y (insert_desc x l).
Proof.
  unfold precedes.
  induction l as [|z l IH]; intros Hin Hxy; [destruct Hin|].
  simpl. destruct (snd x <? snd z)%float eqn:Hxz.
  - destruct Hin as [-> | Hin]; [congruence|].
    apply sublist_cons, IH; assumption.
  - apply sublist_skip.
    apply list_elem_of_In, list_elem_of_split in Hin.
    destruct Hin as (l1 & l2 & ->).
    apply sublist_inserts_l. apply sublist_skip, sublist_nil_l.
Qed.

(** Stability: an entry stays ahead of every later entry that does not
    beat it; in particular, entries of equal score keep their order. *)
Lemma sort_desc_stable l x y :
  precedes x y l -> (snd x <? snd y)%float = false -> precedes x y (sort_desc l).
Proof.
  unfold precedes.
  induction l as [|z l IH]; intros Hpre Hxy.
  - inversion Hpre.
  - simpl. inversion Hpre as [| ? ? ? Hsub | ? ? ? Hsub]; subst.
    + apply insert_desc_ahead; [|exact Hxy].
      apply (Permutation_in _ (Permutation_sym (sort_desc_perm l))).
      apply list_elem_of_In. apply (sublist_cons_l y [] l) in Hsub.
      destruct Hsub as (k1 & k2 & -> & _). set_solver.
    + etransitivity; [apply IH; assumption | apply insert_desc_sublist].
Qed.

Lemma insert_desc_descending x l :
  positive_score (snd x) ->
  Forall (fun y => positive_score (snd y)) l ->
  descending l -> descending (insert_desc x l).
Proof.
  unfold descending. intros Hx.
  induction l as [|y l IH]; intros Hpos Hs; simpl.
  - repeat constructor.
  - inversion Hpos as [|? ? Hy Hpos']; subst.
    inversion Hs as [|? ? Hs' Hall]; subst.
    destruct (snd x <? snd y)%float eqn:Hxy.
    + constructor; [apply IH; assumption|].
      apply (Permutation_Forall (Permutation_sym (insert_desc_perm x l))).
      constructor; [apply ltb_asym; exact Hxy | exact Hall].
    + constructor; [exact Hs|].
      constructor; [exact Hxy|].
      rewrite Forall_forall in Hall, Hpos' |- *.
      intros z Hz.
      apply (ltb_negtrans (snd x) (snd y) (snd z));
        auto.
Qed.

Lemma sort_desc_descending l :
  Forall (fun y => positive_score (snd y)) l -> descending (sort_desc l).
Proof.
  induction l as [|x l IH]; intros Hpos; simpl; [constructor|].
  inversion Hpos; subst.
  apply insert_desc_descending; [assumption | | apply IH; assumption].
  apply (Permutation_Forall (Permutation_sym (sort_desc_perm l))).
  assumption.
Qed.

End SortFacts.

(** ** The ranker *)

Section RankerFacts.

Variable lower : str -> str.

Lemma word_loop_fold (words : list str) (content : str) :
  forall score,
    word_loop words content score
    = fold_left (fun acc _ => (acc + 2)%float)
        (List.filter (fun w => (2 <? len w)%Z && contains w content) words)
        score.
Proof.
  induction words as [|w words IH]; intros score; simpl; [reflexivity|].
  rewrite IH. destruct ((2 <? len w)%Z && contains w content); reflexivity.
Qed.

Lemma keyword_loop_once (keywords : list str) (q : str) (score : float) :
  keyword_loop keywords q score
  = if existsb (fun k => contains k q) keywords then (score + 1)%float
    else score.
Proof.
  induction keywords as [|k keywords IH]; simpl; [reflexivity|].
  destruct (contains k q); [reflexivity | exact IH].
Qed.

(** The score the loop computes is the sum of the four terms, each test
    made on the lower-cased chunk. *)
Lemma score_doc_terms (query : str) (doc : Document) :
  score_doc lower (lower query) doc = spec_score_lowered lower query doc.
Proof.
  unfold score_doc. rewrite keyword_loop_once, word_loop_fold.
  unfold spec_score_lowered, spec_score, char_fraction. cbn [page_content].
  set (q := lower query). set (chunk := lower (page_content doc)).
  assert (H : (if (0 <? match_count q chunk)%nat
               then ((if contains q chunk then 0 + 10 else 0)
                     + float_of_nat (match_count q chunk)
                       / float_of_nat (length q) * 5)%float
               else (if contains q chunk then (0 + 10)%float else 0%float))
              = ((if contains q chunk then 10 else 0)
                 + match match_count q chunk with
                   | O => 0
                   | S _ => float_of_nat (match_count q chunk)
                            / float_of_nat (length q)
                   end * 5)%float).
  { destruct (match_count q chunk) as [|n] eqn:Hn; simpl;
      destruct (contains q chunk); reflexivity. }
  rewrite H. reflexivity.
Qed.

Lemma score_docs_scored (query : str) (docs : store) :
  score_docs lower (lower query) docs = scored lower query docs.
Proof.
  unfold scored. induction docs as [|d docs IH]; simpl; [reflexivity|].
  destruct (0 <? score_doc lower (lower query) d)%float; simpl; congruence.
Qed.

Lemma scored_positive (query : str) (docs : store) :
  Forall (fun e => positive_score (snd e)) (scored lower query docs).
Proof.
  unfold scored. apply List.Forall_forall. intros e He.
  apply in_map_iff in He. destruct He as (d & <- & Hd).
  apply filter_In in Hd. exact (proj2 Hd).
Qed.

Lemma scored_nil_iff (query : str) (docs : store) :
  scored lower query docs = [] <->
  forall d, In d docs -> (0 <? score_doc lower (lower query) d)%float = false.
Proof.
  unfold scored. induction docs as [|d docs IH]; simpl.
  - split; [intros _ ? [] | reflexivity].
  - destruct (0 <? score_doc lower (lower query) d)%float eqn:E; simpl.
    + split; [discriminate|]. intros H. specialize (H d (or_introl eq_refl)).
      congruence.
    + rewrite IH. split.
      * intros H d' [<- | Hin]; [exact E | apply H, Hin].
      * intros H d' Hin. apply H. right. exact Hin.
Qed.

Lemma len_zero {A} (l : list A) : (len l =? 0)%Z = true <-> l = [].
Proof.
  unfold len. destruct l; simpl; split; try reflexivity; try discriminate.
Qed.

Lemma len_nonzero {A} (l : list A) : l <> [] -> (len l =? 0)%Z = false.
Proof.
  intros H. destruct (len l =? 0)%Z eqn:E; [|reflexivity].
  apply len_zero in E. contradiction.
Qed.

Lemma ranked_nil_iff (query : str) (docs : store) :
  ranked lower query docs = [] <-> scored lower query docs = [].
Proof.
  unfold ranked. rewrite score_docs_scored.
  split; intros H.
  - apply length_zero_iff_nil. rewrite <- sort_desc_length, H. reflexivity.
  - rewrite H. reflexivity.
Qed.

Lemma effective_limit_positive (limit : Z) : (0 < effective_limit limit)%Z.
Proof.
  unfold effective_limit. destruct (limit <=? 0)%Z eqn:E; [lia|].
  apply Z.leb_gt in E. exact E.
Qed.

Lemma py_slice_take {A} (l : list A) (n : Z) :
  (0 <= n)%Z -> py_slice l 0 n = firstn (Z.to_nat n) l.
Proof.
  intros Hn. unfold py_slice.
  assert (H0 : norm_index (len l) 0 = 0%Z).
  { unfold norm_index, len. rewrite Z.ltb_irrefl. lia. }
  assert (H1 : norm_index (len l) n = Z.min n (len l)).
  { unfold norm_index. destruct (n <? 0)%Z eqn:E; [|reflexivity].
    apply Z.ltb_lt in E. lia. }
  rewrite H0, H1. change (Z.to_nat 0) with 0%nat.
  rewrite skipn_O, Z.sub_0_r. unfold len.
  destruct (Z.le_ge_cases n (Z.of_nat (length l))).
  - rewrite Z.min_l by lia. reflexivity.
  - rewrite Z.min_r by lia. rewrite Nat2Z.id.
    rewrite !firstn_all2 by lia. reflexivity.
Qed.

Lemma py_slice_take_nonempty {A} (l : list A) (n : Z) :
  l <> [] -> (0 < n)%Z -> py_slice l 0 n <> [].
Proof.
  intros Hl Hn. rewrite py_slice_take by lia.
  destruct l as [|x l]; [contradiction|].
  destruct (Z.to_nat n) eqn:E; [lia|]. discriminate.
Qed.

(** C2.  On an empty collection the search returns the empty sequence;
    on a non-empty collection where no chunk scores above 0 it returns
    the first [limit] chunks in storage order ([limit <= 0] standing for
    5); and on a non-empty collection it never returns the empty
    sequence. *)
Theorem search_fallback (query : str) (limit : Z) (docs : store) :
  (docs = [] -> similarity_search lower query limit docs = []) /\
  (docs <> [] ->
     (forall d, In d docs ->
        (0 <? score_doc lower (lower query) d)%float = false) ->
     similarity_search lower query limit docs
     = firstn (Z.to_nat (effective_limit limit)) docs /\
     ((0 < limit)%Z ->
        similarity_search lower query limit docs
        = firstn (Z.to_nat limit) docs)) /\
  (docs <> [] -> similarity_search lower query limit docs <> []).
Proof.
  pose proof (effective_limit_positive limit) as Hpos.
  split; [|split].
  - intros ->. reflexivity.
  - intros Hne Hzero.
    assert (Hfall : similarity_search lower query limit docs
                    = firstn (Z.to_nat (effective_limit limit)) docs).
    { unfold similarity_search. rewrite (len_nonzero docs Hne).
      apply scored_nil_iff, ranked_nil_iff in Hzero. rewrite Hzero. simpl.
      apply py_slice_take. lia. }
    split; [exact Hfall|].
    intros Hl. rewrite Hfall. unfold effective_limit.
    destruct (limit <=? 0)%Z eqn:E; [apply Z.leb_le in E; lia | reflexivity].
  - intros Hne. unfold similarity_search. rewrite (len_nonzero docs Hne).
    destruct (len (ranked lower query docs) =? 0)%Z eqn:E.
    + apply py_slice_take_nonempty; assumption.
    + intros H. apply map_eq_nil in H. revert H.
      apply py_slice_take_nonempty; [|exact Hpos].
      intros Hr. rewrite Hr in E. discriminate.
Qed.

(** C3, as the code has it.  Each chunk is scored against the lower-cased
    query by the four terms, every test made on the lower-cased chunk;
    the ranked set holds exactly the chunks of positive score, is in
    descending order of score, and keeps a chunk ahead of every later
    chunk that does not beat it (so ties keep storage order); the search
    returns the first [limit] of it.  The search reads the collection
    and leaves it as it is, so searching again gives the same sequence. *)
Theorem search_scores_and_order (query : str) (limit : Z) (docs : store) :
  (forall d,
     score_doc lower (lower query) d = spec_score_lowered lower query d) /\
  Permutation (ranked lower query docs) (scored lower query docs) /\
  descending (ranked lower query docs) /\
  (forall x y,
     precedes x y (scored lower query docs) ->
     (snd x <? snd y)%float = false ->
     precedes x y (ranked lower query docs)) /\
  (ranked lower query docs <> [] ->
     similarity_search lower query limit docs
     = List.map fst
         (firstn (Z.to_nat (effective_limit limit)) (ranked lower query docs))) /\
  (forall w,
     let first := search_store lower query limit w in
     let second := search_store lower query limit (snd first) in
     fst second = fst first /\ snd second = w).
Proof.
  split; [intros d; apply score_doc_terms|].
  unfold ranked. rewrite score_docs_scored.
  split; [apply sort_desc_perm|].
  split; [apply sort_desc_descending, scored_positive|].
  split; [intros x y; apply sort_desc_stable|].
  split; [|intros w; split; reflexivity].
  intros Hne. unfold similarity_search, ranked. rewrite score_docs_scored.
  pose proof (effective_limit_positive limit) as Hpos.
  destruct docs as [|d0 docs'] eqn:Hdocs; [contradiction Hne; reflexivity|].
  rewrite <- Hdocs in *.
  rewrite len_nonzero by (rewrite Hdocs; discriminate).
  rewrite (len_nonzero _ Hne).
  rewrite py_slice_take by lia. reflexivity.
Qed.

End RankerFacts.

Lemma search_fallback_witness :
  similarity_search ascii_lower (u "xyz") 1 [] = [] /\
  similarity_search ascii_lower (u "xyz") 1 [doc_of "hello"; doc_of "moon"]
  = [doc_of "hello"] /\
  similarity_search ascii_lower (u "xyz") 1 [doc_of "hello"; doc_of "moon"]
  <> [].
Proof.
  destruct (search_fallback ascii_lower (u "xyz") 1
              [doc_of "hello"; doc_of "moon"]) as (_ & Hfall & Hne).
  split; [exact (proj1 (search_fallback ascii_lower (u "xyz") 1 []) eq_refl)|].
  split.
  - refine (proj2 (Hfall _ _) _).
    + discriminate.
    + intros d [<- | [<- | []]]; vm_compute; reflexivity.
    + lia.
  - apply Hne. discriminate.
Defined.

(** C3 as the specification states it fails on a chunk in upper case:
    for the query ["abc"], the chunk ["ABC NEWS"] holds none of the
    query's characters and no substring of it, so the four terms taken on
    the chunk as stored give 0 and the chunk would be left out; the code
    scores it 17, as it does the chunk ["abc"], and returns it first. *)
Lemma search_matches_upper_case_chunk :
  spec_score ascii_lower (u "abc") (doc_of "ABC NEWS") = 0%float /\
  score_doc ascii_lower (ascii_lower (u "abc")) (doc_of "ABC NEWS") = 17%float /\
  score_doc ascii_lower (ascii_lower (u "abc")) (doc_of "abc") = 17%float /\
  similarity_search ascii_lower (u "abc") 5 [doc_of "ABC NEWS"; doc_of "abc"]
  = [doc_of "ABC NEWS"; doc_of "abc"].
Proof. repeat split; vm_compute; reflexivity. Qed.

(** ** The external-tool invoker *)

Section InvokerFacts.

Variable E : env.



Lemma call_deepinsight_unfold (summary : str) (w : world) :
  _call_deepinsight E summary w
  = let '(r, w1) := run_deepinsight E summary w in
    match r with
    | Ok report => (Ok report, cleanup E w1)
    | Raise e =>
        if is_TimeoutError e then (Raise timeout_error, cleanup E w1)
        else if is_Exception e
        then (Raise e,
              cleanup E (log ERROR (u "DeepInsight execution failed: "
                                    ++ exn_message e) w1))
        else (Raise e, cleanup E w1)
    end.
Proof.
  unfold _call_deepinsight, try_finally, try_except.
  destruct (run_deepinsight E summary w) as [[report|e] w1]; [reflexivity|].
  unfold is_TimeoutError, is_Exception.
  destruct (exn_kind e); reflexivity.
Qed.

Lemma cleanup_removes (w : world) : files (cleanup E w) !! tmp_file E = None.
Proof.
  unfold cleanup. destruct (files w !! tmp_file E) eqn:Hf; simpl.
  - apply lookup_delete_eq.
  - exact Hf.
Qed.

Lemma cleanup_frame (w : world) :
  llm_prompts (cleanup E w) = llm_prompts w /\
  forall path, path <> tmp_file E ->
    files (cleanup E w) !! path = files w !! path.
Proof.
  unfold cleanup. destruct (files w !! tmp_file E); simpl.
  - split; [reflexivity|]. intros path Hp. apply lookup_delete_ne. congruence.
  - split; reflexivity.
Qed.







End InvokerFacts.

(** ** The orchestrator: the insight strategy *)


Section OrchestratorFacts.

Variable E : env.
Variable config : Config.

Lemma generate_text_ok (prompt reply : str) (w : world) :
  llm_reply E (length (llm_prompts w)) prompt = Ok reply ->
  _generate_text E prompt w = (Ok reply, add_llm_prompt prompt w).
Proof. intros H. unfold _generate_text. rewrite H. reflexivity. Qed.


Lemma generate_transformation_insight (req : TransformationRequest)
    (sources : list Source) (w w' : world) (prompt reply : str)
    (sums : list SourceSummary) :
  req_type req = u "insight" ->
  build_prompt E req (source_context config sources) = Ok prompt ->
  source_summaries sources = Ok sums ->
  insight_response E prompt w = (Ok reply, w') ->
  generate_transformation E config req sources w
  = (Ok {| resp_type := req_type req; resp_content := reply;
           resp_sources := sums; resp_metadata := request_metadata req |}, w').
Proof.
  intros Hty Hprompt Hsums Hresp.
  unfold generate_transformation, bind, lift, ret.
  rewrite Hprompt, Hty.
  change (str_eqb (u "insight") (u "ppt")) with false.
  change (str_eqb (u "insight") (u "insight")) with true.
  cbv iota. rewrite Hresp, Hsums. reflexivity.
Qed.


End OrchestratorFacts.





(** ** The slide parser *)

Lemma split_on_go_nonempty (sep s : str) :
  forall skip cur, (1 <= length (split_on_go sep s skip cur))%nat.
Proof.
  induction s as [|c s IH]; intros skip cur; simpl; [lia|].
  destruct skip; [|apply IH].
  destruct (is_prefix sep (c :: s)); simpl; [lia | apply IH].
Qed.

(** A text that holds the separator is cut into at least two parts. *)
Lemma split_on_go_two_parts (sep s : str) :
  sep <> [] -> contains sep s = true ->
  forall cur, (2 <= length (split_on_go sep s 0 cur))%nat.
Proof.
  intros Hsep. induction s as [|c s IH]; intros Hc cur; simpl in Hc.
  - destruct sep; [congruence | discriminate].
  - cbn [split_on_go].
    destruct (is_prefix sep (c :: s)) eqn:Hp.
    + simpl. pose proof (split_on_go_nonempty sep s (length sep - 1) []). lia.
    + simpl in Hc. apply IH. exact Hc.
Qed.

Section ParserFacts.

Variable lower : str -> str.

(** The slides made of the marker's segments: none when the text holds
    no marker, one for each part after the first marker otherwise. *)
Lemma marker_slides_nonempty (style_ content_ : str) :
  (contains marker_cn content_ || contains marker_en content_ = true) ->
  marker_slides style_ content_ <> [].
Proof.
  unfold marker_slides. intros H.
  destruct (contains marker_cn content_) eqn:Hcn.
  - rewrite Hcn.
    pose proof (split_on_go_two_parts marker_cn content_ ltac:(discriminate) Hcn [])
      as Hlen.
    unfold split_on.
    destruct (split_on_go marker_cn content_ 0 []) as [|p0 [|p1 ps]];
      simpl in *; try lia. discriminate.
  - simpl in H. rewrite H.
    pose proof (split_on_go_two_parts marker_en content_ ltac:(discriminate) H [])
      as Hlen.
    unfold split_on.
    destruct (split_on_go marker_en content_ 0 []) as [|p0 [|p1 ps]];
      simpl in *; try lia. discriminate.
Qed.


(** Every slide taken from a heading holds a required field, carries the
    global style, and is a slice of the text. *)
Lemma heading_slides_accepted (style_ content_ : str) (starts : list nat) :
  Forall (fun s =>
            style s = style_ /\
            existsb (fun keyword => contains keyword (lower (content s)))
              required_fields = true /\
            exists i j, content s = py_slice content_ i j)
    (heading_slides lower style_ content_ starts).
Proof.
  induction starts as [|start later IH]; cbn [heading_slides]; [constructor|].
  match goal with
  | |- context [existsb ?f required_fields] =>
      destruct (existsb f required_fields) eqn:Hk
  end; [|exact IH].
  constructor; [|exact IH].
  cbn [style content]. split; [reflexivity|]. split; [exact Hk|]. eauto.
Qed.


End ParserFacts.


(** ** The transform route: the cap on slide images *)


Section ServerFacts.

Variable E : env.
Variable config : Config.
Variable lower : str -> str.

















End ServerFacts.


(** A deck of two slides: both images are requested, and the note
    records their addresses. *)
Example transform_ppt_two_slides :
  match transform (scenario_with chatty tool_missing (deck_of 2))
          config_with_gemini ascii_lower 0 (u "nb") ppt_request empty_world with
  | Some (Ok note, w) =>
      length (image_requests w) = 2%nat /\
      note_metadata note !! "slides"
      = Some (MList [u "/uploads/infograph_1.png"; u "/uploads/infograph_1.png"]) /\
      note_metadata note !! "image_error" = None
  | _ => False
  end.
Proof. vm_compute. repeat split; reflexivity. Qed.

(** A deck of eleven slides: no image is requested. *)
Example transform_ppt_eleven_slides :
  match transform (scenario_with chatty tool_missing (deck_of 11))
          config_with_gemini ascii_lower 0 (u "nb") ppt_request empty_world with
  | Some (Ok note, w) =>
      image_requests w = [] /\
      note_metadata note !! "slides" = None /\
      note_metadata note !! "image_error" = Some (MStr too_many_slides_message)
  | _ => False
  end.
Proof. vm_compute. repeat split; reflexivity. Qed.

(* ===================================================================== *)
(** * Further properties of the code *)
(* ===================================================================== *)

(** ** The chunker: how many chunks, and how large *)

Section WindowCount.

Context {A : Type}.

Lemma py_slice_length (l : list A) (i j : Z) :
  (0 <= i <= j)%Z -> (j <= len l)%Z ->
  length (py_slice l i j) = Z.to_nat (j - i).
Proof.
  intros Hij Hj. unfold len in Hj.
  replace i with (Z.of_nat (Z.to_nat i)) by lia.
  replace j with (Z.of_nat (Z.to_nat j)) at 1 by lia.
  rewrite py_slice_in_range by lia.
  rewrite length_firstn, length_skipn. lia.
Qed.

Lemma py_slice_within (l : list A) (i j : Z) :
  (0 <= i <= j)%Z -> (j <= len l)%Z ->
  py_slice l i j = firstn (Z.to_nat (j - i)) (skipn (Z.to_nat i) l).
Proof.
  intros Hij Hj. unfold py_slice.
  rewrite !norm_index_in_range by lia. reflexivity.
Qed.

(** From index [i] on, the loop adds one window when the first one
    reaches the end, and otherwise as many as it takes steps to get
    there. *)
Lemma window_loop_count (units : list A) (size overlap : Z) :
  (0 <= overlap < size)%Z ->
  forall fuel i chunks,
    (Z.to_nat (len units - i) < fuel)%nat ->
    (0 <= i < len units)%Z ->
    exists r,
      window_loop fuel units size overlap i chunks = Some r /\
      len r
      = (len chunks
         + (if (len units <=? i + size)%Z then 1
            else (len units - i - overlap + (size - overlap) - 1)
                 / (size - overlap)))%Z.
Proof.
  intros Hov. induction fuel as [|fuel IH]; intros i chunks Hfuel Hi; [lia|].
  cbn [window_loop].
  destruct (i <? len units)%Z eqn:E1; [|apply Z.ltb_ge in E1; lia].
  destruct (len units <=? i + size)%Z eqn:E2.
  - apply Z.leb_le in E2. rewrite Z.min_r by lia.
    destruct (len units >=? len units)%Z eqn:E3;
      [|destruct (Z.geb_spec (len units) (len units)); [discriminate | lia]].
    eexists. split; [reflexivity|].
    unfold len. rewrite length_app. simpl. lia.
  - apply Z.leb_gt in E2. rewrite Z.min_l by lia.
    destruct (i + size >=? len units)%Z eqn:E3; [apply Z.geb_le in E3; lia|].
    destruct (IH (i + (size - overlap))%Z
                (chunks ++ [py_slice units i (i + size)%Z])) as (r & Hr & Hlen).
    + lia.
    + lia.
    + exists r. split; [exact Hr|]. rewrite Hlen.
      assert (Hl : len (chunks ++ [py_slice units i (i + size)%Z])
                   = (len chunks + 1)%Z).
      { unfold len. rewrite length_app. simpl. lia. }
      rewrite Hl.
      set (n := len units) in *. set (b := (size - overlap)%Z).
      assert (Hb : (0 < b)%Z) by (unfold b; lia).
      replace (i + b + size)%Z with (i + size + b)%Z by lia.
      destruct (n <=? i + size + b)%Z eqn:E4.
      * apply Z.leb_le in E4.
        assert (H2 : ((n - i - overlap + b - 1) / b = 2)%Z).
        { symmetry. apply (Z.div_unique _ _ 2 (n - i - overlap - b - 1)%Z);
            unfold b in *; lia. }
        rewrite H2. lia.
      * apply Z.leb_gt in E4.
        replace (n - (i + b) - overlap + b - 1)%Z
          with ((n - i - overlap + b - 1) + (-1) * b)%Z by lia.
        rewrite Z.div_add by lia. lia.
Qed.

Lemma window_loop_count_from_start (units : list A) (size overlap : Z) :
  (0 <= overlap < size)%Z ->
  forall fuel r,
    window_loop fuel units size overlap 0 [] = Some r ->
    len r = expected_chunks (len units) size overlap.
Proof.
  intros Hov fuel r Hr. unfold expected_chunks.
  destruct (len units =? 0)%Z eqn:E0.
  - apply Z.eqb_eq in E0.
    destruct fuel as [|fuel]; [discriminate|]. cbn [window_loop] in Hr.
    rewrite E0 in Hr. simpl in Hr. inversion Hr. reflexivity.
  - apply Z.eqb_neq in E0.
    assert (Hpos : (0 <= 0 < len units)%Z) by (unfold len in *; lia).
    destruct (window_loop_count units size overlap Hov
                (S (Z.to_nat (len units))) 0%Z [] ltac:(lia) Hpos)
      as (r' & Hr' & Hlen).
    pose proof (window_loop_deterministic _ _ _ _ _ _ _ _ _ Hr Hr') as ->.
    rewrite Hlen. change (len (@nil (list A))) with 0%Z.
    replace (0 + size)%Z with size by lia.
    replace (len units - 0 - overlap)%Z with (len units - overlap)%Z by lia.
    destruct (len units <=? size)%Z; lia.
Qed.

(** Every window the loop returns holds between 1 and [size] units. *)
Lemma window_loop_sizes (units : list A) (size overlap : Z) :
  (0 < size)%Z ->
  forall fuel i chunks r,
    (0 <= i)%Z ->
    (overlap <= size)%Z ->
    Forall (window_ok size) chunks ->
    window_loop fuel units size overlap i chunks = Some r ->
    Forall (window_ok size) r.
Proof.
  intros Hs. induction fuel as [|fuel IH]; intros i chunks r Hi Hov Hc Hr;
    [discriminate|].
  cbn [window_loop] in Hr.
  destruct (i <? len units)%Z eqn:E1; [|inversion Hr; subst; exact Hc].
  apply Z.ltb_lt in E1.
  assert (Hw : window_ok size (py_slice units i (Z.min (i + size) (len units)))).
  { unfold window_ok.
    assert (Hl := py_slice_length units i (Z.min (i + size) (len units))
                    ltac:(lia) ltac:(lia)).
    unfold len at 1 3. rewrite Hl. lia. }
  assert (Hc' : Forall (window_ok size)
                  (chunks ++ [py_slice units i (Z.min (i + size) (len units))])).
  { apply Forall_app. split; [exact Hc | constructor; [exact Hw | constructor]]. }
  destruct (Z.min (i + size) (len units) >=? len units)%Z;
    [inversion Hr; subst; exact Hc'|].
  eapply IH; [| |exact Hc'|exact Hr]; lia.
Qed.

(** With an overlap above the size, the loop returns only when the first
    window already reaches the end. *)
Lemma window_loop_sizes_from_start (units : list A) (size overlap : Z) :
  (0 < size)%Z ->
  forall fuel r,
    window_loop fuel units size overlap 0 [] = Some r ->
    Forall (window_ok size) r.
Proof.
  intros Hs fuel r Hr.
  destruct (Z.le_gt_cases overlap size) as [Hle | Hgt].
  - eapply window_loop_sizes; [exact Hs| | |constructor|exact Hr]; lia.
  - destruct fuel as [|fuel]; [discriminate|].
    cbn [window_loop] in Hr.
    destruct (0 <? len units)%Z eqn:E1; [|inversion Hr; constructor].
    apply Z.ltb_lt in E1.
    destruct (Z.min (0 + size) (len units) >=? len units)%Z eqn:E2.
    + apply Z.geb_le in E2. inversion Hr; subst.
      constructor; [|constructor].
      unfold window_ok.
      assert (Hl := py_slice_length units 0 (Z.min (0 + size) (len units))
                      ltac:(lia) ltac:(lia)).
      unfold len at 1 3. rewrite Hl. lia.
    + assert (Hlt : (size < len units)%Z).
      { destruct (Z.geb_spec (Z.min (0 + size) (len units)) (len units));
          [discriminate | lia]. }
      rewrite window_loop_stuck in Hr; [discriminate | lia..].
Qed.

End WindowCount.

Lemma effective_size_positive (c : Config) : (0 < effective_size c)%Z.
Proof.
  unfold effective_size.
  destruct (chunk_size c <=? 0)%Z eqn:E1; [lia | apply Z.leb_gt in E1; lia].
Qed.

Lemma effective_overlap_nonnegative (c : Config) : (0 <= effective_overlap c)%Z.
Proof.
  unfold effective_overlap.
  destruct (chunk_overlap c <? 0)%Z eqn:E1; [lia | apply Z.ltb_ge in E1; lia].
Qed.

Lemma len_units_of_cjk (text : str) :
  cjk_dominant text = true -> len (units_of text) = len text.
Proof.
  intros H. unfold units_of, len. rewrite H, length_map. reflexivity.
Qed.

Lemma len_map {A B} (f : A -> B) (l : list A) : len (List.map f l) = len l.
Proof. unfold len. rewrite length_map. reflexivity. Qed.

(** [_split_text] in terms of the windows cut from the units. *)
Lemma split_text_windows (fuel : nat) (c : Config) (text : str)
    (chunks : list str) :
  _split_text fuel c text = Some chunks ->
  if cjk_dominant text
  then window_loop fuel text (effective_size c) (effective_overlap c) 0 []
       = Some chunks
  else exists r,
         window_loop fuel (split text) (effective_size c)
           (effective_overlap c) 0 [] = Some r /\
         chunks = List.map (join space) r.
Proof.
  unfold _split_text. destruct (cjk_dominant text); [tauto|].
  destruct (window_loop fuel (split text) _ _ 0 []) as [r|]; [|discriminate].
  simpl. intros H. inversion H. eauto.
Qed.

(** X1.  With an overlap below the chunk size (both after the defaults
    for non-positive sizes and negative overlaps), [_split_text] returns
    once the fuel exceeds the number of units, and the number of chunks is
    0 for no unit, 1 when all units fit into one chunk, and otherwise
    [(n - overlap) / (size - overlap)] rounded up. *)
Theorem split_text_chunk_count (c : Config) (text : str) (fuel : nat) :
  (effective_overlap c < effective_size c)%Z ->
  (length (units_of text) < fuel)%nat ->
  exists chunks,
    _split_text fuel c text = Some chunks /\
    len chunks
    = expected_chunks (len (units_of text)) (effective_size c)
        (effective_overlap c).
Proof.
  intros Hov Hfuel.
  pose proof (effective_overlap_nonnegative c) as Hnn.
  assert (Hrange : (0 <= effective_overlap c < effective_size c)%Z) by lia.
  unfold _split_text, units_of in *.
  destruct (cjk_dominant text).
  - rewrite length_map in Hfuel. rewrite len_map.
    destruct (window_loop_from_start text _ _ Hrange) as (r & Hr & _).
    exists r. split; [apply Hr; exact Hfuel|].
    eapply window_loop_count_from_start; [exact Hrange | apply Hr; exact Hfuel].
  - destruct (window_loop_from_start (split text) _ _ Hrange) as (r & Hr & _).
    exists (List.map (join space) r). rewrite (Hr fuel Hfuel). split; [reflexivity|].
    rewrite len_map.
    eapply window_loop_count_from_start; [exact Hrange | apply Hr; exact Hfuel].
Qed.

Lemma split_text_chunk_count_witness :
  exists chunks,
    _split_text 8 (cfg 3 1) (u "a b c d e f g") = Some chunks /\
    len chunks = 3%Z.
Proof.
  apply (split_text_chunk_count (cfg 3 1) (u "a b c d e f g") 8).
  - vm_compute. reflexivity.
  - vm_compute. lia.
Defined.

(** X2.  Whenever [_split_text] returns, no chunk is empty and none holds
    more units than the chunk size in force: code points when ideographs
    dominate the text, words otherwise. *)
Theorem split_text_chunk_bounds (c : Config) (text : str) (fuel : nat)
    (chunks : list str) :
  _split_text fuel c text = Some chunks ->
  Forall (fun chunk =>
            chunk <> [] /\
            (1 <= Z.of_nat (chunk_units (cjk_dominant text) chunk)
               <= effective_size c)%Z)
    chunks.
Proof.
  intros H. apply split_text_windows in H.
  pose proof (effective_size_positive c) as Hs.
  destruct (cjk_dominant text).
  - apply window_loop_sizes_from_start in H; [|exact Hs].
    eapply Forall_impl; [exact H|].
    intros w Hw. unfold window_ok, len in Hw. simpl. split; [|exact Hw].
    intros ->. simpl in Hw. lia.
  - destruct H as (r & Hr & ->).
    assert (Hsz := window_loop_sizes_from_start _ _ _ Hs _ _ Hr).
    assert (Hwords : Forall (Forall is_word) r).
    { eapply window_loop_Forall; [| |exact Hr].
      - intros i j. apply Forall_py_slice, split_words.
      - constructor. }
    apply List.Forall_forall. intros chunk Hin.
    apply in_map_iff in Hin. destruct Hin as (w & <- & Hin).
    pose proof (proj1 (List.Forall_forall _ _) Hsz w Hin) as Hw.
    pose proof (proj1 (List.Forall_forall _ _) Hwords w Hin) as Hww.
    unfold window_ok, len in Hw. simpl. rewrite split_join by exact Hww.
    split; [|exact Hw].
    intros Hnil. apply (f_equal split) in Hnil.
    rewrite split_join in Hnil by exact Hww. subst w. simpl in Hw. lia.
Qed.

Lemma split_text_chunk_bounds_witness :
  Forall (fun chunk =>
            chunk <> [] /\
            (1 <= Z.of_nat (chunk_units false chunk) <= 3)%Z)
    [u "a b c"; u "c d e"; u "e f g"].
Proof.
  apply (split_text_chunk_bounds (cfg 3 1) (u "a b c d e f g") 8).
  vm_compute. reflexivity.
Defined.

(** X3.  With an overlap that is not below the chunk size, [_split_text]
    returns exactly for the texts that fit into one chunk: every longer
    text keeps the loop running for ever. *)
Theorem split_text_returns_iff_fits (c : Config) (text : str) :
  (effective_size c <= effective_overlap c)%Z ->
  (exists fuel chunks, _split_text fuel c text = Some chunks)
  <-> (len (units_of text) <= effective_size c)%Z.
Proof.
  intros Hov. pose proof (effective_size_positive c) as Hs.
  assert (Hone : forall A (units : list A),
            (len units <= effective_size c)%Z ->
            exists r, window_loop 1 units (effective_size c)
                        (effective_overlap c) 0 [] = Some r).
  { intros A units Hfit. cbn [window_loop].
    destruct (0 <? len units)%Z; [|eauto].
    destruct (Z.geb_spec (Z.min (0 + effective_size c) (len units)) (len units));
      [eauto | lia]. }
  split.
  - intros (fuel & chunks & H).
    destruct (Z.le_gt_cases (len (units_of text)) (effective_size c))
      as [Hle | Hgt]; [exact Hle | exfalso].
    apply split_text_windows in H. unfold units_of in Hgt.
    destruct (cjk_dominant text).
    + rewrite len_map in Hgt.
      rewrite window_loop_stuck in H; [discriminate | lia..].
    + destruct H as (r & Hr & _).
      rewrite window_loop_stuck in Hr; [discriminate | lia..].
  - intros Hfit. exists 1%nat. unfold _split_text, units_of in *.
    destruct (cjk_dominant text).
    + rewrite len_map in Hfit. destruct (Hone _ text Hfit) as (r & Hr). eauto.
    + destruct (Hone _ (split text) Hfit) as (r & Hr).
      rewrite Hr. simpl. eauto.
Qed.

Lemma split_text_returns_iff_fits_witness :
  (exists fuel chunks, _split_text fuel (cfg 2 5) (u "a b") = Some chunks)
  <-> (len (units_of (u "a b")) <= effective_size (cfg 2 5))%Z.
Proof.
  apply (split_text_returns_iff_fits (cfg 2 5) (u "a b")).
  vm_compute. discriminate.
Defined.

(** ** The store: ingestion and deletion *)



Lemma make_docs_source (source_name : str) (chunks : list str) :
  forall start,
    Forall (fun doc => meta_source doc = source_name)
      (make_docs source_name start chunks).
Proof.
  induction chunks as [|ch chunks IH]; intros start; simpl; constructor;
    [reflexivity | apply IH].
Qed.

Lemma str_eqb_eq (a b : str) : str_eqb a b = true <-> a = b.
Proof.
  revert b. induction a as [|x a IH]; intros [|y b]; simpl;
    try (split; [discriminate | discriminate]); [tauto|].
  unfold char_eqb. rewrite andb_true_iff, N.eqb_eq, IH.
  split; [intros [-> ->]; reflexivity | intros H; inversion H; tauto].
Qed.

Lemma str_eqb_refl (a : str) : str_eqb a a = true.
Proof. apply str_eqb_eq. reflexivity. Qed.

Lemma str_eqb_neq (a b : str) : str_eqb a b = false <-> a <> b.
Proof.
  rewrite <- str_eqb_eq. destruct (str_eqb a b); split; congruence.
Qed.

Lemma delete_app (source_name : str) (docs more : store) :
  Docs.delete source_name (docs ++ more)
  = Docs.delete source_name docs ++ Docs.delete source_name more.
Proof. apply List.filter_app. Qed.

Lemma delete_all_of_source (source_name : str) (docs : store) :
  Forall (fun doc => meta_source doc = source_name) docs ->
  Docs.delete source_name docs = [].
Proof.
  induction 1 as [|doc docs Hd _ IH]; [reflexivity|].
  unfold Docs.delete in *. simpl. rewrite Hd, str_eqb_refl. exact IH.
Qed.

Lemma delete_none_of_source (source_name : str) (docs : store) :
  Forall (fun doc => meta_source doc <> source_name) docs ->
  Docs.delete source_name docs = docs.
Proof.
  induction 1 as [|doc docs Hd _ IH]; [reflexivity|].
  unfold Docs.delete in *. simpl.
  apply str_eqb_neq in Hd. rewrite Hd. simpl. rewrite IH. reflexivity.
Qed.



(** X5.  Deleting a source after ingesting a text under its name leaves
    what deleting it before the ingestion would have left; when no stored
    document bore that name, the store is as it was before the
    ingestion. *)
Theorem ingest_then_delete (fuel : nat) (c : Config)
    (source_name content : str) (docs docs' : store) (count : Z) :
  ingest_text fuel c source_name content docs = Some (count, docs') ->
  Docs.delete source_name docs' = Docs.delete source_name docs /\
  (Forall (fun doc => meta_source doc <> source_name) docs ->
   Docs.delete source_name docs' = docs).
Proof.
  unfold ingest_text.
  destruct (_split_text fuel c content) as [chunks|]; [|discriminate].
  intros H. inversion H. subst.
  assert (Heq : Docs.delete source_name (docs ++ make_docs source_name 0 chunks)
                = Docs.delete source_name docs).
  { rewrite delete_app, (delete_all_of_source _ _ (make_docs_source _ _ _)).
    apply app_nil_r. }
  split; [exact Heq|].
  intros Hnew. rewrite Heq. apply delete_none_of_source, Hnew.
Qed.

Lemma ingest_then_delete_witness :
  Docs.delete (u "new.txt")
    ([doc_of "old"] ++ make_docs (u "new.txt") 0 [u "a b c"; u "c d e"])
  = [doc_of "old"].
Proof.
  apply (ingest_then_delete 8 (cfg 3 1) (u "new.txt") (u "a b c d e")
           [doc_of "old"] _ 2).
  - vm_compute. reflexivity.
  - constructor; [|constructor]. vm_compute. discriminate.
Defined.

(** ** The ranker: what a search can return *)

Section SearchFacts.

Variable lower : str -> str.

Lemma scored_documents (query : str) (docs : store) :
  List.map fst (scored lower query docs)
  = List.filter (fun d => (0 <? score_doc lower (lower query) d)%float) docs.
Proof.
  unfold scored. rewrite List.map_map. simpl. apply List.map_id.
Qed.

Lemma sublist_List_filter {A} (f : A -> bool) (l : list A) :
  sublist (List.filter f l) l.
Proof.
  induction l as [|x l IH]; simpl; [constructor|].
  destruct (f x); [apply sublist_skip | apply sublist_cons]; exact IH.
Qed.

Lemma in_firstn {A} (n : nat) (l : list A) (x : A) :
  In x (firstn n l) -> In x l.
Proof.
  intros H. rewrite <- (firstn_skipn n l). apply in_or_app. left. exact H.
Qed.

Lemma ranked_perm_scored (query : str) (docs : store) :
  Permutation (ranked lower query docs) (scored lower query docs).
Proof. unfold ranked. rewrite score_docs_scored. apply sort_desc_perm. Qed.

Lemma ranked_descending (query : str) (docs : store) :
  descending (ranked lower query docs).
Proof.
  unfold ranked. rewrite score_docs_scored.
  apply sort_desc_descending, scored_positive.
Qed.

Lemma ranked_entries (query : str) (docs : store) (e : Document * float) :
  In e (ranked lower query docs) <->
  In (fst e) docs /\ snd e = score_doc lower (lower query) (fst e) /\
  positive_score (snd e).
Proof.
  pose proof (ranked_perm_scored query docs) as Hperm.
  split.
  - intros He. apply (Permutation_in _ Hperm) in He.
    unfold scored in He. apply in_map_iff in He.
    destruct He as (d & <- & Hd). apply filter_In in Hd. simpl. tauto.
  - intros (Hin & Hs & Hpos).
    apply (Permutation_in _ (Permutation_sym Hperm)).
    unfold scored. apply in_map_iff. exists (fst e). split.
    + destruct e as [d s]. simpl in *. congruence.
    + apply filter_In. split; [exact Hin|]. rewrite <- Hs. exact Hpos.
Qed.

(** The search in terms of a prefix: of the ranked set when it is not
    empty, of the store otherwise. *)
Lemma similarity_search_take (query : str) (limit : Z) (docs : store) :
  similarity_search lower query limit docs
  = match ranked lower query docs with
    | [] => firstn (Z.to_nat (effective_limit limit)) docs
    | _ => List.map fst (firstn (Z.to_nat (effective_limit limit))
                           (ranked lower query docs))
    end.
Proof.
  pose proof (effective_limit_positive limit) as Hpos.
  unfold similarity_search.
  destruct (len docs =? 0)%Z eqn:E0.
  - apply len_zero in E0. subst docs. simpl. destruct (Z.to_nat _); reflexivity.
  - destruct (ranked lower query docs) as [|e r] eqn:Er.
    + simpl. apply py_slice_take. lia.
    + rewrite len_nonzero by discriminate. rewrite py_slice_take by lia.
      reflexivity.
Qed.

Lemma similarity_search_length (query : str) (limit : Z) (docs : store) :
  (len (similarity_search lower query limit docs) <= effective_limit limit)%Z.
Proof.
  pose proof (effective_limit_positive limit) as Hpos.
  rewrite similarity_search_take. unfold len.
  destruct (ranked lower query docs) as [|e r];
    rewrite ?length_map, length_firstn; lia.
Qed.

Lemma similarity_search_stored (query : str) (limit : Z) (docs : store) :
  similarity_search lower query limit docs ⊆+ docs.
Proof.
  rewrite similarity_search_take.
  destruct (ranked lower query docs) as [|e r] eqn:Er.
  - apply sublist_submseteq, sublist_take.
  - rewrite <- Er.
    transitivity (List.map fst (ranked lower query docs)).
    + apply sublist_submseteq. apply (fmap_sublist fst), sublist_take.
    + transitivity (List.map fst (scored lower query docs)).
      * apply Permutation_submseteq.
        apply Permutation_map, ranked_perm_scored.
      * rewrite scored_documents. apply sublist_submseteq, sublist_List_filter.
Qed.

(** X6.  A search returns at most [limit] documents ([limit <= 0] standing
    for 5), and only stored ones: the result is a sub-multiset of the
    store, so no document comes back more often than it is stored. *)
Theorem search_result_bounds (query : str) (limit : Z) (docs : store) :
  (len (similarity_search lower query limit docs) <= effective_limit limit)%Z /\
  similarity_search lower query limit docs ⊆+ docs.
Proof.
  split; [apply similarity_search_length | apply similarity_search_stored].
Qed.

(** X24.  Once a source has been deleted from the collection, no search
    returns a chunk of it. *)
Theorem search_after_delete (source_name query : str) (limit : Z)
    (docs : store) :
  Forall (fun doc => meta_source doc <> source_name)
    (similarity_search lower query limit (Docs.delete source_name docs)).
Proof.
  apply List.Forall_forall. intros doc Hin.
  apply list_elem_of_In in Hin.
  pose proof (elem_of_submseteq _ _ _ Hin
                (similarity_search_stored query limit
                   (Docs.delete source_name docs))) as Hd.
  apply list_elem_of_In in Hd. unfold Docs.delete in Hd.
  apply filter_In in Hd. destruct Hd as [_ Hd].
  apply negb_true_iff, str_eqb_neq in Hd. exact Hd.
Qed.

Lemma descending_app (l1 l2 : list (Document * float)) :
  descending (l1 ++ l2) ->
  forall x y, In x l1 -> In y l2 -> (snd x <? snd y)%float = false.
Proof.
  unfold descending. induction l1 as [|z l1 IH]; intros Hd x y Hx Hy;
    [destruct Hx|].
  simpl in Hd. inversion Hd as [|? ? Hrest Hall]; subst.
  destruct Hx as [<- | Hx].
  - apply (proj1 (List.Forall_forall _ _) Hall). apply in_or_app. tauto.
  - apply (IH Hrest x y Hx Hy).
Qed.

(** X7.  When some chunk scores above 0, no stored chunk that the search
    leaves out beats a chunk it returns: the result holds the best
    [limit] chunks. *)
Theorem search_returns_the_best (query : str) (limit : Z) (docs : store)
    (d d' : Document) :
  ranked lower query docs <> [] ->
  In d (similarity_search lower query limit docs) ->
  In d' docs ->
  ~ In d' (similarity_search lower query limit docs) ->
  (score_doc lower (lower query) d <? score_doc lower (lower query) d')%float
  = false.
Proof.
  intros Hne. rewrite similarity_search_take.
  destruct (ranked lower query docs) as [|e0 r0] eqn:Er; [contradiction|].
  rewrite <- Er. clear Er Hne e0 r0.
  set (k := Z.to_nat (effective_limit limit)).
  set (q := lower query).
  intros Hd Hd' Hout.
  apply in_map_iff in Hd. destruct Hd as ([d1 s] & Hfst & Hin). simpl in Hfst.
  subst d1.
  assert (Hr := proj1 (ranked_entries query docs (d, s))
                  (in_firstn _ _ _ Hin)) .
  destruct Hr as (_ & Hs & Hpos). simpl in Hs, Hpos. fold q in Hs.
  rewrite <- Hs.
  destruct (0 <? score_doc lower q d')%float eqn:Hpos'.
  - assert (Hin' : In (d', score_doc lower q d') (ranked lower query docs)).
    { apply ranked_entries. simpl. fold q. tauto. }
    rewrite <- (firstn_skipn k (ranked lower query docs)) in Hin'.
    apply in_app_or in Hin'. destruct Hin' as [Hin' | Hin'].
    + contradiction Hout. apply in_map_iff.
      exists (d', score_doc lower q d'). tauto.
    + apply (descending_app (firstn k (ranked lower query docs))
               (skipn k (ranked lower query docs)) ) with
        (x := (d, s)) (y := (d', score_doc lower q d')); [|exact Hin|exact Hin'].
      rewrite firstn_skipn. apply ranked_descending.
  - destruct (s <? score_doc lower q d')%float eqn:Hlt; [|reflexivity].
    exfalso. revert Hpos Hpos' Hlt. unfold positive_score.
    rewrite !FloatAxioms.ltb_spec. intros H1 H2 H3.
    pose proof (SFltb_left_ordered _ _ H1) as Ho1.
    pose proof (SFltb_left_ordered _ _ H3) as Ho2.
    assert (Hz : SFordered (Prim2SF 0)) by (vm_compute; discriminate).
    assert (H4 : SFltb (Prim2SF (score_doc lower q d')) (Prim2SF s) = false)
      by (apply SFltb_asym; exact H3).
    pose proof (SFltb_negtrans (Prim2SF 0) (Prim2SF (score_doc lower q d'))
                  (Prim2SF s) Hz Ho2 Ho1 H2 H4).
    congruence.
Qed.

Lemma is_prefix_nil (s : str) : is_prefix [] s = true.
Proof. destruct s; reflexivity. Qed.

Lemma contains_nil (s : str) : contains [] s = true.
Proof. destruct s; reflexivity. Qed.

Lemma contains_in_nil (needle : str) :
  needle <> [] -> contains needle [] = false.
Proof. destruct needle; [contradiction | reflexivity]. Qed.

Lemma score_docs_constant (q : str) (s : float) (docs : store) :
  (forall d, score_doc lower q d = s) -> (0 <? s)%float = true ->
  score_docs lower q docs = List.map (fun d => (d, s)) docs.
Proof.
  intros Hs Hpos. induction docs as [|d docs IH]; simpl; [reflexivity|].
  rewrite Hs, Hpos, IH. reflexivity.
Qed.

Lemma sort_desc_constant (s : float) (docs : store) :
  (s <? s)%float = false ->
  sort_desc (List.map (fun d => (d, s)) docs) = List.map (fun d => (d, s)) docs.
Proof.
  intros Hs. induction docs as [|d docs IH]; simpl; [reflexivity|].
  rewrite IH. destruct docs as [|d2 docs]; simpl; [reflexivity|].
  rewrite Hs. reflexivity.
Qed.

(** X8.  An empty query matches every chunk: each one scores 10, for the
    empty string is a substring of every text, and the search returns the
    first [limit] chunks in storage order. *)
Theorem search_empty_query (limit : Z) (docs : store) :
  lower [] = [] ->
  (forall d, score_doc lower (lower []) d = 10%float) /\
  similarity_search lower [] limit docs
  = firstn (Z.to_nat (effective_limit limit)) docs.
Proof.
  intros Hlow.
  assert (Hscore : forall d, score_doc lower (lower []) d = 10%float).
  { intros d. rewrite Hlow. unfold score_doc. rewrite contains_nil.
    reflexivity. }
  split; [exact Hscore|].
  rewrite similarity_search_take. unfold ranked.
  rewrite (score_docs_constant _ 10%float docs Hscore eq_refl).
  rewrite sort_desc_constant by reflexivity.
  destruct docs as [|d docs]; [reflexivity|].
  cbn [List.map]. rewrite <- (List.map_cons (fun d => (d, 10%float))).
  rewrite <- firstn_map, List.map_map. simpl. rewrite List.map_id. reflexivity.
Qed.

End SearchFacts.

Lemma search_returns_the_best_witness :
  (score_doc ascii_lower (ascii_lower (u "sales"))
     (doc_from "a.txt" "Sales rose" 0)
   <? score_doc ascii_lower (ascii_lower (u "sales"))
        (doc_from "b.txt" "tea" 0))%float = false.
Proof.
  apply (search_returns_the_best ascii_lower (u "sales") 1
           [doc_from "b.txt" "tea" 0; doc_from "a.txt" "Sales rose" 0]).
  - vm_compute. discriminate.
  - vm_compute. tauto.
  - vm_compute. tauto.
  - vm_compute. intros [H | []]. discriminate.
Defined.

Lemma search_empty_query_witness :
  similarity_search ascii_lower [] 1
    [doc_from "b.txt" "tea" 0; doc_from "a.txt" "Sales rose" 0]
  = [doc_from "b.txt" "tea" 0].
Proof.
  apply (search_empty_query ascii_lower 1
           [doc_from "b.txt" "tea" 0; doc_from "a.txt" "Sales rose" 0]).
  reflexivity.
Defined.

(** ** The orchestrator: what a transformation does to the world *)

Section TransformationFacts.

Variable E : env.
Variable config : Config.




Lemma generate_text_prompts (prompt : str) (w : world) :
  let w' := snd (_generate_text E prompt w) in
  llm_prompts w' = llm_prompts w ++ [prompt] /\
  gemini_prompts w' = gemini_prompts w.
Proof.
  unfold _generate_text.
  destruct (llm_reply E _ prompt) as [text|e]; [|destruct (is_Exception e)];
    split; reflexivity.
Qed.

Lemma generate_text_result (prompt : str) (w : world) :
  fst (_generate_text E prompt w) = llm_reply E (length (llm_prompts w)) prompt.
Proof.
  unfold _generate_text.
  destruct (llm_reply E _ prompt) as [text|e]; [|destruct (is_Exception e)];
    reflexivity.
Qed.








(** X10.  For a type other than [ppt] and [insight], once the prompt is
    built, the primary provider is called exactly once, with that prompt,
    and Gemini never; the provider's reply is the content of the
    response, and an exception of the provider reaches the caller as it
    is.  A source without an id makes the call fail, after the provider
    has answered. *)
Theorem generate_transformation_direct (req : TransformationRequest)
    (sources : list Source) (w : world) (prompt : str) :
  req_type req <> u "ppt" ->
  req_type req <> u "insight" ->
  build_prompt E req (source_context config sources) = Ok prompt ->
  let out := generate_transformation E config req sources w in
  llm_prompts (snd out) = llm_prompts w ++ [prompt] /\
  gemini_prompts (snd out) = gemini_prompts w /\
  fst out
  = match llm_reply E (length (llm_prompts w)) prompt with
    | Ok reply =>
        match source_summaries sources with
        | Ok sums =>
            Ok {| resp_type := req_type req; resp_content := reply;
                  resp_sources := sums;
                  resp_metadata := request_metadata req |}
        | Raise e => Raise e
        end
    | Raise e => Raise e
    end.
Proof.
  intros Hppt Hins Hprompt. apply str_eqb_neq in Hppt, Hins.
  unfold generate_transformation, bind, lift. rewrite Hprompt, Hppt, Hins.
  pose proof (generate_text_prompts prompt w) as Hp.
  pose proof (generate_text_result prompt w) as Hr.
  destruct (_generate_text E prompt w) as [[reply|e] w1]; simpl in Hp, Hr;
    rewrite <- Hr.
  - destruct (source_summaries sources) as [sums|e]; simpl; tauto.
  - simpl. tauto.
Qed.




(** X12.  When the tool succeeds (it ends within 600 seconds with
    status 0 and leaves a readable report), the content of an insight
    response is the tool's report, the provider has been called once, for
    the summary, and the temporary file is gone. *)
Theorem insight_returns_the_report (req : TransformationRequest)
    (sources : list Source) (w : world) (prompt summary report : str)
    (sums : list SourceSummary) (p : process) (d : Z) :
  req_type req = u "insight" ->
  build_prompt E req (source_context config sources) = Ok prompt ->
  source_summaries sources = Ok sums ->
  llm_reply E (length (llm_prompts w)) prompt = Ok summary ->
  deepinsight E (tmp_file E) summary = Spawned p ->
  proc_duration p = Some d -> (d <= 600)%Z ->
  proc_returncode p = 0%Z ->
  proc_output p = Some (Text report) ->
  let out := generate_transformation E config req sources w in
  fst out = Ok {| resp_type := req_type req; resp_content := report;
                  resp_sources := sums;
                  resp_metadata := request_metadata req |} /\
  llm_prompts (snd out) = llm_prompts w ++ [prompt] /\
  files (snd out) !! tmp_file E = None.
Proof.
  intros Hty Hprompt Hsums Hsum Hspawn Hdur Hd Hcode Hout.
  assert (Hcall : _call_deepinsight E summary (add_llm_prompt prompt w)
                  = (Ok report,
                     cleanup E (write_output E p (add_llm_prompt prompt w)))).
  { rewrite call_deepinsight_unfold. unfold run_deepinsight.
    rewrite Hspawn. unfold wait_for. rewrite Hdur.
    destruct (Z.leb_spec d 600); [|lia].
    rewrite Hcode. simpl negb. cbv iota.
    unfold read_text, write_output. rewrite Hout. simpl.
    rewrite lookup_insert_eq. reflexivity. }
  assert (Hresp : insight_response E prompt w
                  = (Ok report,
                     cleanup E (write_output E p (add_llm_prompt prompt w)))).
  { unfold insight_response, bind.
    rewrite (generate_text_ok E prompt summary w Hsum).
    unfold try_except. rewrite Hcall. reflexivity. }
  intros out. subst out.
  rewrite (generate_transformation_insight E config req sources w _ prompt
             report sums Hty Hprompt Hsums Hresp).
  simpl. split; [reflexivity|]. split; [|apply cleanup_removes].
  rewrite (proj1 (cleanup_frame E _)).
  unfold write_output. rewrite Hout. reflexivity.
Qed.


End TransformationFacts.


Lemma generate_transformation_direct_witness :
  fst (generate_transformation (scenario chatty tool_missing) default_config
         summary_request [a_source] empty_world)
  = Ok {| resp_type := u "summary"; resp_content := u "An analysis.";
          resp_sources := [{| sum_id := u "s1"; sum_name := u "report.txt";
                              sum_type := u "file" |}];
          resp_metadata := request_metadata summary_request |}.
Proof.
  apply (generate_transformation_direct (scenario chatty tool_missing)
           default_config summary_request [a_source] empty_world
           (u "Summarise: " ++ source_context default_config [a_source])).
  - vm_compute. discriminate.
  - vm_compute. discriminate.
  - reflexivity.
Defined.


Lemma insight_returns_the_report_witness :
  let out := generate_transformation (scenario chatty tool_succeeds)
               default_config insight_request [a_source] empty_world in
  fst out
  = Ok {| resp_type := u "insight"; resp_content := u "# Insight report";
          resp_sources := [{| sum_id := u "s1"; sum_name := u "report.txt";
                              sum_type := u "file" |}];
          resp_metadata := request_metadata insight_request |} /\
  llm_prompts (snd out)
  = [u "Summarise: " ++ source_context default_config [a_source]] /\
  files (snd out)
    !! tmp_file (scenario chatty tool_succeeds) = None.
Proof.
  apply (insight_returns_the_report (scenario chatty tool_succeeds)
           default_config insight_request [a_source] empty_world
           (u "Summarise: " ++ source_context default_config [a_source])
           (u "An analysis.") (u "# Insight report")
           [{| sum_id := u "s1"; sum_name := u "report.txt";
               sum_type := u "file" |}]
           {| proc_duration := Some 30%Z; proc_returncode := 0;
              proc_stderr := [];
              proc_output := Some (Text (u "# Insight report")) |} 30);
    try reflexivity.
  lia.
Defined.


(** ** The chat *)

Lemma py_slice_last {A} (l : list A) (n : Z) :
  (0 < n)%Z ->
  py_slice l (- n) (len l) = skipn (length l - Z.to_nat n) l.
Proof.
  intros Hn. unfold py_slice.
  assert (Hb : norm_index (len l) (len l) = len l).
  { apply norm_index_in_range. unfold len. lia. }
  assert (Ha : Z.to_nat (norm_index (len l) (- n))
               = (length l - Z.to_nat n)%nat).
  { unfold norm_index, len.
    destruct (- n <? 0)%Z eqn:E1;
      [apply Z.ltb_lt in E1 | apply Z.ltb_ge in E1]; lia. }
  rewrite Hb, Ha. apply firstn_all2. rewrite length_skipn.
  unfold norm_index, len in *.
  destruct (- n <? 0)%Z eqn:E1;
    [apply Z.ltb_lt in E1 | apply Z.ltb_ge in E1]; lia.
Qed.

Lemma source_loop_names (docs : list Document) :
  forall seen name,
    In name (List.map sum_name (source_loop docs seen)) <->
    name <> [] /\ ~ In name seen /\ In name (List.map meta_source docs).
Proof.
  induction docs as [|doc docs IH]; intros seen name; simpl; [tauto|].
  destruct (str_eqb (meta_source doc) []) eqn:Hempty; simpl.
  - apply str_eqb_eq in Hempty. rewrite IH. split.
    + tauto.
    + intros (Hne & Hseen & [Heq | Hin]); [congruence | tauto].
  - apply str_eqb_neq in Hempty.
    destruct (not_seen (meta_source doc) seen) eqn:Hseen; simpl.
    + assert (Hnot : ~ In (meta_source doc) seen).
      { unfold not_seen in Hseen. apply negb_true_iff in Hseen.
        intros Hin.
        assert (Hex : existsb (str_eqb (meta_source doc)) seen = true).
        { apply existsb_exists. exists (meta_source doc).
          split; [exact Hin | apply str_eqb_refl]. }
        congruence. }
      rewrite IH. simpl. split.
      * intros [<- | (Hne & Hs & Hin)]; [tauto|]. tauto.
      * intros (Hne & Hs & [Heq | Hin]); [tauto|].
        destruct (str_eqb (meta_source doc) name) eqn:Hd;
          [apply str_eqb_eq in Hd; tauto | apply str_eqb_neq in Hd].
        right. split; [exact Hne|]. split; [|exact Hin].
        intros [Heq | Hs']; tauto.
    + assert (Hin : In (meta_source doc) seen).
      { unfold not_seen in Hseen. apply negb_false_iff in Hseen.
        apply existsb_exists in Hseen. destruct Hseen as (x & Hx & Heq).
        apply str_eqb_eq in Heq. congruence. }
      rewrite IH. split; [tauto|].
      intros (Hne & Hs & [Heq | Hin']); [|tauto].
      subst name. contradiction.
Qed.

Lemma source_loop_distinct (docs : list Document) :
  forall seen, List.NoDup (List.map sum_name (source_loop docs seen)).
Proof.
  induction docs as [|doc docs IH]; intros seen; simpl; [constructor|].
  destruct (negb (str_eqb (meta_source doc) [])
            && not_seen (meta_source doc) seen); [|apply IH].
  simpl. constructor; [|apply IH].
  intros Hin. apply source_loop_names in Hin. simpl in Hin. tauto.
Qed.

Lemma source_loop_shape (docs : list Document) :
  forall seen,
    Forall (fun s => sum_id s = sum_name s /\ sum_type s = u "file")
      (source_loop docs seen).
Proof.
  induction docs as [|doc docs IH]; intros seen; simpl; [constructor|].
  destruct (negb (str_eqb (meta_source doc) [])
            && not_seen (meta_source doc) seen); [|apply IH].
  constructor; [split; reflexivity | apply IH].
Qed.

Section ChatFacts.

Variable E : env.
Variable config : Config.
Variable lower : str -> str.
Variable chat_prompt : str -> str -> str -> result str.

(** X13.  The chat reads the last ten messages of the history only:
    dropping everything before them changes neither the prompt nor the
    reply. *)
Theorem chat_reads_last_ten_messages (notebook_id message : str)
    (history : list ChatMessage) :
  chat E config lower chat_prompt notebook_id message history
  = chat E config lower chat_prompt notebook_id message
      (skipn (length history - 10) history).
Proof.
  assert (H : history_text history
              = history_text (skipn (length history - 10) history)).
  { unfold history_text. rewrite !(py_slice_last _ 10) by lia.
    change (Z.to_nat 10) with 10%nat.
    rewrite length_skipn, skipn_skipn.
    replace (length history - (length history - 10) - 10
             + (length history - 10))%nat
      with (length history - 10)%nat by lia.
    reflexivity. }
  unfold chat. rewrite <- H. reflexivity.
Qed.

(** X14.  The sources a chat reports are the names of the sources of the
    retrieved chunks, each once, an empty name left out; every one is
    reported as a file whose id is its name; and [docs_retrieved] is the
    number of chunks retrieved, which is at most the limit. *)
Theorem chat_sources_distinct (notebook_id message : str)
    (history : list ChatMessage) (w w' : world) (resp : ChatResponse) :
  chat E config lower chat_prompt notebook_id message history w
  = (Ok resp, w') ->
  let retrieved := similarity_search lower message (max_sources config) (docs w) in
  List.NoDup (List.map sum_name (chat_sources resp)) /\
  (forall name,
     In name (List.map sum_name (chat_sources resp)) <->
     name <> [] /\ In name (List.map meta_source retrieved)) /\
  Forall (fun s => sum_id s = sum_name s /\ sum_type s = u "file")
    (chat_sources resp) /\
  chat_metadata resp !! "docs_retrieved" = Some (len retrieved) /\
  (len retrieved <= effective_limit (max_sources config))%Z.
Proof.
  intros Hchat retrieved.
  unfold chat, bind, search_store, lift in Hchat. fold retrieved in Hchat.
  destruct (chat_prompt _ _ message) as [prompt|e]; [|discriminate].
  destruct (_generate_text E prompt w) as [[reply|e] w1]; [|discriminate].
  unfold ret in Hchat. inversion Hchat. subst. simpl.
  split; [apply source_loop_distinct|].
  split.
  - intros name. rewrite source_loop_names. simpl. tauto.
  - split; [apply source_loop_shape|].
    split; [apply lookup_singleton_eq|].
    apply similarity_search_length.
Qed.

(** X15.  On an empty chunk collection the chat still calls the
    provider, once, with an empty context; it reports no source and
    [docs_retrieved] 0. *)
Theorem chat_on_empty_store (notebook_id message prompt reply : str)
    (history : list ChatMessage) (w : world) :
  docs w = [] ->
  chat_prompt (history_text history) [] message = Ok prompt ->
  llm_reply E (length (llm_prompts w)) prompt = Ok reply ->
  chat E config lower chat_prompt notebook_id message history w
  = (Ok {| chat_message := reply; chat_sources := [];
           chat_session_id := notebook_id;
           chat_metadata := {["docs_retrieved" := 0%Z]} |},
     add_llm_prompt prompt w).
Proof.
  intros Hdocs Hprompt Hreply.
  unfold chat, bind, search_store, lift. rewrite Hdocs.
  change (similarity_search lower message (max_sources config) []) with
    (@nil Document).
  simpl context_of. rewrite Hprompt.
  rewrite (generate_text_ok E prompt reply w Hreply). reflexivity.
Qed.

End ChatFacts.

Lemma chat_sources_distinct_witness :
  let w := set_docs [doc_from "a.txt" "tea" 0; doc_from "b.txt" "milk" 0;
                     doc_from "a.txt" "more tea" 1] empty_world in
  let resp := {| chat_message := u "An analysis.";
                 chat_sources :=
                   [{| sum_id := u "a.txt"; sum_name := u "a.txt";
                       sum_type := u "file" |};
                    {| sum_id := u "b.txt"; sum_name := u "b.txt";
                       sum_type := u "file" |}];
                 chat_session_id := u "nb";
                 chat_metadata := {["docs_retrieved" := 3%Z]} |} in
  List.NoDup (List.map sum_name (chat_sources resp)) /\
  chat_metadata resp !! "docs_retrieved" = Some 3%Z.
Proof.
  intros w resp.
  destruct (chat_sources_distinct (scenario chatty tool_missing) default_config
              ascii_lower plain_chat_prompt (u "nb") (u "xyz") [] w
              (snd (chat (scenario chatty tool_missing) default_config
                      ascii_lower plain_chat_prompt (u "nb") (u "xyz") [] w))
              resp ltac:(vm_compute; reflexivity))
    as (H1 & _ & _ & H2 & _).
  split; [exact H1 | exact H2].
Defined.

Lemma chat_on_empty_store_witness :
  chat (scenario chatty tool_missing) default_config ascii_lower
    plain_chat_prompt (u "nb") (u "hello") [message_of "user" "hi"] empty_world
  = (Ok {| chat_message := u "An analysis."; chat_sources := [];
           chat_session_id := u "nb";
           chat_metadata := {["docs_retrieved" := 0%Z]} |},
     add_llm_prompt (u "用户: hi
------hello") empty_world).
Proof.
  apply (chat_on_empty_store (scenario chatty tool_missing) default_config
           ascii_lower plain_chat_prompt (u "nb") (u "hello")
           (u "用户: hi
------hello") (u "An analysis.") [message_of "user" "hi"] empty_world);
    reflexivity.
Defined.

(** ** The slide parser: what becomes of the text *)

Lemma is_prefix_app (p s : str) :
  is_prefix p s = true -> s = p ++ skipn (length p) s.
Proof.
  revert s. induction p as [|a p IH]; intros s H; [reflexivity|].
  destruct s as [|b s]; [discriminate|]. simpl in H.
  apply andb_true_iff in H. destruct H as [Hab Hp].
  apply N.eqb_eq in Hab. subst b. simpl. f_equal. apply IH, Hp.
Qed.

Lemma is_prefix_app_l (p s : str) : is_prefix p (p ++ s) = true.
Proof.
  induction p as [|a p IH]; simpl; [reflexivity|].
  unfold char_eqb. rewrite N.eqb_refl. exact IH.
Qed.

(** Code points still to skip are dropped from the text. *)
Lemma split_on_go_skip (sep s : str) :
  forall skip cur,
    split_on_go sep s skip cur = split_on_go sep (skipn skip s) 0 cur.
Proof.
  induction s as [|c s IH]; intros skip cur.
  - rewrite skipn_nil. reflexivity.
  - destruct skip as [|k]; [reflexivity|]. simpl. apply IH.
Qed.

(** Putting the separator back between the parts gives the text back. *)
Lemma split_on_go_glue (sep : str) :
  sep <> [] ->
  forall n s cur,
    (length s <= n)%nat ->
    exists first later,
      split_on_go sep s 0 cur = first :: later /\
      first ++ concat (List.map (app sep) later) = rev cur ++ s.
Proof.
  intros Hsep. induction n as [|n IH]; intros s cur Hn.
  - destruct s; [|simpl in Hn; lia]. exists (rev cur), []. split; reflexivity.
  - destruct s as [|c s].
    + exists (rev cur), []. split; reflexivity.
    + cbn [split_on_go]. destruct (is_prefix sep (c :: s)) eqn:Hp.
      * rewrite split_on_go_skip.
        pose proof (is_prefix_app _ _ Hp) as Hs.
        assert (Hskip : skipn (length sep - 1) s = skipn (length sep) (c :: s)).
        { destruct sep as [|a sep]; [congruence|]. simpl.
          rewrite Nat.sub_0_r. reflexivity. }
        rewrite Hskip.
        destruct (IH (skipn (length sep) (c :: s)) []) as (q0 & qs & Hq & Hglue).
        { rewrite length_skipn. simpl in Hn |- *.
          destruct sep; [congruence|]. simpl. lia. }
        exists (rev cur), (q0 :: qs). rewrite Hq. split; [reflexivity|].
        simpl. rewrite <- app_assoc, Hglue. simpl. rewrite <- Hs. reflexivity.
      * destruct (IH s (c :: cur)) as (q0 & qs & Hq & Hglue);
          [simpl in Hn; lia|].
        exists q0, qs. split; [exact Hq|]. rewrite Hglue. simpl.
        rewrite <- app_assoc. reflexivity.
Qed.

Lemma split_on_glue (sep s : str) :
  sep <> [] ->
  exists first later,
    split_on sep s = first :: later /\
    first ++ concat (List.map (app sep) later) = s.
Proof.
  intros Hsep.
  destruct (split_on_go_glue sep Hsep (length s) s [] (le_n _))
    as (first & later & H1 & H2).
  exists first, later. split; assumption.
Qed.

Lemma find_from_found (sep s : str) :
  contains sep s = true -> forall i, (i <= find_from sep s i)%Z.
Proof.
  induction s as [|c s IH]; intros Hc i; simpl in *.
  - rewrite orb_false_r in Hc. rewrite Hc. lia.
  - destruct (is_prefix sep (c :: s)); [lia|].
    simpl in Hc. specialize (IH Hc (i + 1)%Z). lia.
Qed.

(** The first part is the text before the first separator. *)
Lemma split_on_go_first (sep s : str) :
  contains sep s = true ->
  forall cur i first later,
    split_on_go sep s 0 cur = first :: later ->
    first = rev cur ++ firstn (Z.to_nat (find_from sep s i - i)) s.
Proof.
  induction s as [|c s IH]; intros Hc cur i first later H.
  - simpl in *. inversion H. rewrite firstn_nil, app_nil_r. reflexivity.
  - cbn [split_on_go] in H. cbn [find_from]. simpl in Hc.
    destruct (is_prefix sep (c :: s)) eqn:Hp.
    + inversion H. rewrite Z.sub_diag. simpl. rewrite app_nil_r. reflexivity.
    + simpl in Hc.
      rewrite (IH Hc (c :: cur) (i + 1)%Z first later H).
      pose proof (find_from_found sep s Hc (i + 1)%Z) as Hge.
      replace (Z.to_nat (find_from sep s (i + 1) - i))
        with (S (Z.to_nat (find_from sep s (i + 1) - (i + 1)))) by lia.
      simpl. rewrite <- app_assoc. reflexivity.
Qed.

Section SegmentFacts.

Variable lower : str -> str.

Lemma marker_slides_cover (style_ content_ marker : str) :
  marker <> [] ->
  contains marker content_ = true ->
  let slides :=
    List.map (fun part => {| style := style_; content := marker ++ part |})
      (List.tl (split_on marker content_)) in
  py_slice content_ 0 (find marker content_)
  ++ concat (List.map content slides) = content_ /\
  Forall (fun s => is_prefix marker (content s) = true /\ style s = style_)
    slides.
Proof.
  intros Hm Hc slides. subst slides.
  destruct (split_on_glue marker content_ Hm) as (first & later & Hsplit & Hglue).
  rewrite Hsplit. simpl List.tl. split.
  - pose proof (find_from_found marker content_ Hc 0) as Hge.
    rewrite py_slice_take by exact Hge.
    pose proof (split_on_go_first marker content_ Hc [] 0 first later Hsplit)
      as Hfirst.
    simpl in Hfirst. rewrite Z.sub_0_r in Hfirst. fold (find marker content_) in Hfirst.
    rewrite <- Hfirst, List.map_map. simpl. exact Hglue.
  - apply List.Forall_forall. intros s Hs. apply in_map_iff in Hs.
    destruct Hs as (part & <- & _). simpl.
    split; [apply is_prefix_app_l | reflexivity].
Qed.

(** X16.  When no heading gives a slide and the text holds the inline
    marker, nothing after the first marker is lost: the text before the
    first marker followed by the contents of the slides is the text; each
    slide begins with the marker and carries the style of the style
    block. *)
Theorem parse_ppt_slides_marker_segments (content_ : str) :
  heading_slides lower (extract_style content_) content_
    (slide_starts content_) = [] ->
  contains marker_cn content_ || contains marker_en content_ = true ->
  let marker := if contains marker_cn content_ then marker_cn else marker_en in
  let slides := parse_ppt_slides lower content_ in
  py_slice content_ 0 (find marker content_)
  ++ concat (List.map content slides) = content_ /\
  Forall (fun s =>
            is_prefix marker (content s) = true /\
            style s = extract_style content_)
    slides.
Proof.
  intros Hnone Hmark marker slides.
  assert (Hc : contains marker content_ = true).
  { subst marker. destruct (contains marker_cn content_) eqn:Hcn;
      [exact Hcn | exact Hmark]. }
  assert (Hne : marker <> []).
  { subst marker. destruct (contains marker_cn content_); discriminate. }
  pose proof (marker_slides_cover (extract_style content_) content_ marker
                Hne Hc) as Hcover.
  assert (Hslides :
    slides
    = List.map (fun part => {| style := extract_style content_;
                               content := marker ++ part |})
        (List.tl (split_on marker content_))).
  { subst slides. unfold parse_ppt_slides, parse_with. rewrite Hnone.
    pose proof (marker_slides_nonempty (extract_style content_) content_ Hmark)
      as Hseg.
    assert (Hms :
      marker_slides (extract_style content_) content_
      = List.map (fun part => {| style := extract_style content_;
                                 content := marker ++ part |})
          (List.tl (split_on marker content_))).
    { unfold marker_slides. fold marker. rewrite Hc. reflexivity. }
    rewrite <- Hms.
    destruct (marker_slides (extract_style content_) content_);
      [congruence | reflexivity]. }
  rewrite Hslides. exact Hcover.
Qed.

End SegmentFacts.

Lemma parse_ppt_slides_marker_segments_witness :
  let text := u "intro // NARRATIVE GOAL open // NARRATIVE GOAL close" in
  py_slice text 0 (find marker_en text)
  ++ concat (List.map content (parse_ppt_slides ascii_lower text)) = text.
Proof.
  intros text.
  destruct (parse_ppt_slides_marker_segments ascii_lower text
              ltac:(vm_compute; reflexivity) ltac:(vm_compute; reflexivity))
    as [H _].
  exact H.
Defined.

(** The matches are found left to right: their starts increase, and
    none lies beyond the end of the text. *)
Lemma finditer_go_starts (r : re) (s : str) :
  forall cur skip,
    Forall (fun sp => (offset cur <= fst sp <= offset cur + length s)%nat)
      (finditer_go r s cur skip) /\
    StronglySorted lt (List.map fst (finditer_go r s cur skip)).
Proof.
  induction s as [|c s IH]; intros cur skip.
  - simpl. destruct skip; [|split; constructor].
    destruct (match_at r cur); split; repeat constructor; simpl; lia.
  - assert (Hnext : forall skip',
              Forall (fun sp => (S (offset cur) <= fst sp
                                 <= offset cur + length (c :: s))%nat)
                (finditer_go r s (advance c s cur) skip')).
    { intros skip'. destruct (IH (advance c s cur) skip') as [Hb _].
      eapply Forall_impl; [exact Hb|]. simpl. intros sp Hsp. lia. }
    assert (Hweak : forall skip',
              Forall (fun sp => (offset cur <= fst sp
                                 <= offset cur + length (c :: s))%nat)
                (finditer_go r s (advance c s cur) skip')).
    { intros skip'. eapply Forall_impl; [apply Hnext|]. simpl. intros sp Hsp. lia. }
    cbn [finditer_go]. destruct skip as [|n].
    + destruct (match_at r cur) as [e|].
      * split.
        -- constructor; [simpl; lia | apply Hweak].
        -- simpl. constructor; [apply IH|].
           apply List.Forall_forall. intros x Hx. apply in_map_iff in Hx.
           destruct Hx as (sp & <- & Hsp).
           pose proof (proj1 (List.Forall_forall _ _) (Hnext _) sp Hsp). simpl in *. lia.
      * split; [apply Hweak | apply IH].
    + split; [apply Hweak | apply IH].
Qed.

Lemma slide_starts_sorted (content_ : str) :
  StronglySorted lt (slide_starts content_) /\
  Forall (fun start => (start <= length content_)%nat) (slide_starts content_).
Proof.
  unfold slide_starts, finditer.
  destruct (finditer_go_starts slide_pattern content_
              {| before := None; rest := content_; offset := 0 |} 0) as [Hb Hs].
  split; [exact Hs|].
  apply List.Forall_forall. intros x Hx. apply in_map_iff in Hx.
  destruct Hx as (sp & <- & Hsp).
  pose proof (proj1 (List.Forall_forall _ _) Hb sp Hsp). simpl in *. lia.
Qed.

Section HeadingFacts.

Variable lower : str -> str.

Lemma heading_slides_length (style_ content_ : str) (starts : list nat) :
  (length (heading_slides lower style_ content_ starts) <= length starts)%nat.
Proof.
  induction starts as [|start later IH]; cbn [heading_slides]; [simpl; lia|].
  match goal with
  | |- context [existsb ?f required_fields] =>
      destruct (existsb f required_fields)
  end; simpl; lia.
Qed.

Lemma skipn_slice {A} (l : list A) (a b : nat) :
  (a <= b)%nat ->
  skipn a l = firstn (b - a) (skipn a l) ++ skipn b l.
Proof.
  intros Hab. rewrite <- (firstn_skipn (b - a) (skipn a l)) at 1.
  rewrite skipn_skipn. do 2 f_equal. lia.
Qed.

(** The slides taken from the headings are pieces of the text that
    follow one another: put together they are part of the text from the
    first heading on, and all of it when no candidate was rejected. *)
Lemma heading_slides_pieces (style_ content_ : str) (starts : list nat) :
  StronglySorted lt starts ->
  Forall (fun start => (start <= length content_)%nat) starts ->
  forall first later,
    starts = first :: later ->
    let slides := heading_slides lower style_ content_ starts in
    sublist (concat (List.map content slides)) (skipn first content_) /\
    (length slides = length starts ->
     concat (List.map content slides) = skipn first content_).
Proof.
  induction starts as [|start rest_ IH]; intros Hsorted Hbound first later Heq;
    [discriminate|].
  inversion Heq. subst first later. clear Heq.
  inversion Hsorted as [|? ? Hsorted' Hlt]. subst.
  inversion Hbound as [|? ? Hstart Hbound']. subst.
  cbn [heading_slides].
  pose proof (heading_slides_length style_ content_ rest_) as Hlen.
  destruct rest_ as [|next rest_].
  - (* the last match: its section runs to the end of the text *)
    assert (Hslice : py_slice content_ (Z.of_nat start) (len content_)
                     = skipn start content_).
    { unfold len. rewrite py_slice_in_range by lia.
      apply firstn_all2. rewrite length_skipn. lia. }
    rewrite Hslice. cbn [heading_slides].
    match goal with
    | |- context [existsb ?f required_fields] =>
        destruct (existsb f required_fields)
    end; simpl.
    + rewrite app_nil_r. split; [reflexivity | reflexivity].
    + split; [apply sublist_nil_l | discriminate].
  - assert (Hnext : (start < next)%nat).
    { apply (proj1 (List.Forall_forall _ _) Hlt). left. reflexivity. }
    assert (Hnb : (next <= length content_)%nat).
    { inversion Hbound'. assumption. }
    assert (Hslice : py_slice content_ (Z.of_nat start) (Z.of_nat next)
                     = firstn (next - start) (skipn start content_)).
    { apply py_slice_in_range. lia. }
    rewrite Hslice.
    destruct (IH Hsorted' Hbound' next rest_ eq_refl) as [Hsub Hall].
    set (tail_ := heading_slides lower style_ content_ (next :: rest_)) in *.
    set (piece := firstn (next - start) (skipn start content_)).
    rewrite (skipn_slice content_ start next) by lia. fold piece.
    match goal with
    | |- context [existsb ?f required_fields] =>
        destruct (existsb f required_fields)
    end.
    + cbn [List.map concat content]. split.
      * apply sublist_app; [reflexivity | exact Hsub].
      * intros Hl. simpl in Hl. f_equal. apply Hall. simpl. lia.
    + split.
      * apply sublist_inserts_l. exact Hsub.
      * intros Hl. simpl in Hl, Hlen. lia.
Qed.

Lemma heading_slides_style (style_ content_ : str) (starts : list nat) :
  Forall (fun s => style s = style_)
    (heading_slides lower style_ content_ starts).
Proof.
  eapply Forall_impl; [apply heading_slides_accepted|].
  intros s (Hs & _). exact Hs.
Qed.

(** X17.  When headings give slides, the slides are pieces of the text
    in the order of the text, none overlapping another: put together they
    are a subsequence of the text.  When no candidate was rejected, they
    are the text from the first heading to the end, and what stands
    before the first heading is in no slide.  Every slide carries the
    style of the style block. *)
Theorem parse_ppt_slides_heading_sections (content_ : str) :
  heading_slides lower (extract_style content_) content_
    (slide_starts content_) <> [] ->
  let slides := parse_ppt_slides lower content_ in
  sublist (concat (List.map content slides)) content_ /\
  (length slides = length (slide_starts content_) ->
   concat (List.map content slides)
   = skipn (List.hd 0%nat (slide_starts content_)) content_) /\
  Forall (fun s => style s = extract_style content_) slides.
Proof.
  intros Hne slides.
  assert (Hslides : slides
                    = heading_slides lower (extract_style content_) content_
                        (slide_starts content_)).
  { subst slides. unfold parse_ppt_slides, parse_with.
    destruct (heading_slides lower _ content_ (slide_starts content_));
      [congruence | reflexivity]. }
  rewrite Hslides. clear Hslides slides.
  destruct (slide_starts_sorted content_) as [Hsorted Hbound].
  destruct (slide_starts content_) as [|first later] eqn:Hstarts;
    [contradiction Hne; reflexivity|].
  destruct (heading_slides_pieces (extract_style content_) content_
              (first :: later) Hsorted Hbound first later eq_refl)
    as [Hsub Hall].
  split; [|split].
  - etransitivity; [exact Hsub|]. apply sublist_drop.
  - exact Hall.
  - apply heading_slides_style.
Qed.

End HeadingFacts.

Lemma parse_ppt_slides_heading_sections_witness :
  let text := u "Preface
Slide 1: Opening
// Narrative goal: greet
Slide 2: End
// narrative goal: thank" in
  concat (List.map content (parse_ppt_slides ascii_lower text))
  = skipn 8 text.
Proof.
  intros text.
  destruct (parse_ppt_slides_heading_sections ascii_lower text
              ltac:(vm_compute; discriminate))
    as (_ & H & _).
  apply H. vm_compute. reflexivity.
Defined.

(** ** Gemini: the retries of an image *)

Section ImageFacts.

Variable E : env.
Variable config : Config.

(** The [k] attempts that follow the ones already made all fail with an
    [Exception]. *)
Lemma image_attempts_succeed (model prompt path : str) :
  forall k left attempt w,
    (k < left)%nat ->
    (forall j, (j < k)%nat ->
       exists e,
         imagen_reply E (length (image_prompts w) + j) model prompt = Raise e /\
         is_Exception e = true) ->
    imagen_reply E (length (image_prompts w) + k) model prompt = Ok path ->
    let out := image_attempts E left attempt model prompt w in
    fst out = Ok path /\
    image_prompts (snd out) = image_prompts w ++ repeat prompt (S k) /\
    length (logs (snd out)) = (length (logs w) + k)%nat.
Proof.
  induction k as [|k IH]; intros left attempt w Hk Hfail Hok;
    (destruct left as [|left]; [lia|]); cbn [image_attempts].
  - rewrite Nat.add_0_r in Hok. rewrite Hok. simpl.
    split; [reflexivity|]. split; [reflexivity | lia].
  - destruct (Hfail 0%nat ltac:(lia)) as (e & He & Hexn).
    rewrite Nat.add_0_r in He. rewrite He, Hexn.
    set (w1 := log ERROR _ (add_image_prompt prompt w)).
    assert (Hlen : length (image_prompts w1) = S (length (image_prompts w))).
    { subst w1. simpl. rewrite length_app. simpl. lia. }
    destruct (IH left (attempt + 1)%Z w1 ltac:(lia)) as (H1 & H2 & H3).
    + intros j Hj. rewrite Hlen.
      replace (S (length (image_prompts w)) + j)%nat
        with (length (image_prompts w) + S j)%nat by lia.
      apply Hfail. lia.
    + rewrite Hlen.
      replace (S (length (image_prompts w)) + k)%nat
        with (length (image_prompts w) + S k)%nat by lia.
      exact Hok.
    + split; [exact H1|]. split.
      * rewrite H2. subst w1. simpl. rewrite <- app_assoc. reflexivity.
      * rewrite H3. subst w1. simpl. rewrite length_app. simpl. lia.
Qed.

Lemma image_attempts_exhausted (model prompt : str) :
  forall left attempt w,
    (forall j, (j < left)%nat ->
       exists e,
         imagen_reply E (length (image_prompts w) + j) model prompt = Raise e /\
         is_Exception e = true) ->
    let out := image_attempts E left attempt model prompt w in
    fst out = Raise (mk_exn RuntimeError
                       (u "Failed to generate image after 3 attempts")) /\
    image_prompts (snd out) = image_prompts w ++ repeat prompt left /\
    length (logs (snd out)) = (length (logs w) + left)%nat.
Proof.
  induction left as [|left IH]; intros attempt w Hfail; cbn [image_attempts].
  - simpl. rewrite app_nil_r. split; [reflexivity|]. split; [reflexivity | lia].
  - destruct (Hfail 0%nat ltac:(lia)) as (e & He & Hexn).
    rewrite Nat.add_0_r in He. rewrite He, Hexn.
    set (w1 := log ERROR _ (add_image_prompt prompt w)).
    assert (Hlen : length (image_prompts w1) = S (length (image_prompts w))).
    { subst w1. simpl. rewrite length_app. simpl. lia. }
    destruct (IH (attempt + 1)%Z w1) as (H1 & H2 & H3).
    + intros j Hj. rewrite Hlen.
      replace (S (length (image_prompts w)) + j)%nat
        with (length (image_prompts w) + S j)%nat by lia.
      apply Hfail. lia.
    + split; [exact H1|]. split.
      * rewrite H2. subst w1. simpl. rewrite <- app_assoc. reflexivity.
      * rewrite H3. subst w1. simpl. rewrite length_app. simpl. lia.
Qed.

(** X18.  With a key and the package at hand, [generate_image] tries at
    most three times and stops at the first attempt that succeeds: when
    the attempt after [k < 3] failed ones succeeds, its path is returned,
    [k + 1] attempts have been made and [k] errors logged; when three
    attempts fail, a [RuntimeError] says so, after exactly three attempts
    and three logged errors. *)
Theorem generate_image_retries (model prompt : str) (w : world) :
  gemini_configured config = true ->
  genai_available E = true ->
  let out := gemini_generate_image E config model prompt w in
  let failed j :=
    exists e,
      imagen_reply E (length (image_prompts w) + j) model prompt = Raise e /\
      is_Exception e = true in
  (forall k path,
     (k < 3)%nat ->
     (forall j, (j < k)%nat -> failed j) ->
     imagen_reply E (length (image_prompts w) + k) model prompt = Ok path ->
     fst out = Ok path /\
     image_prompts (snd out) = image_prompts w ++ repeat prompt (S k) /\
     length (logs (snd out)) = (length (logs w) + k)%nat) /\
  ((forall j, (j < 3)%nat -> failed j) ->
   fst out = Raise (mk_exn RuntimeError
                      (u "Failed to generate image after 3 attempts")) /\
   image_prompts (snd out) = image_prompts w ++ repeat prompt 3 /\
   length (logs (snd out)) = (length (logs w) + 3)%nat).
Proof.
  intros Hconf Hgen out failed. subst out.
  unfold gemini_generate_image, bind, modify. rewrite Hconf, Hgen. simpl negb.
  cbv iota. split.
  - intros k path Hk Hfail Hok.
    apply (image_attempts_succeed model prompt path k 3 1%Z
             (add_image_request prompt w) Hk Hfail Hok).
  - intros Hfail.
    apply (image_attempts_exhausted model prompt 3 1%Z
             (add_image_request prompt w) Hfail).
Qed.

End ImageFacts.

Lemma generate_image_retries_witness :
  let out := gemini_generate_image flaky_images config_with_gemini
               image_model (u "a chart") empty_world in
  fst out = Ok (u "data/uploads/infograph_3.png") /\
  image_prompts (snd out) = [u "a chart"; u "a chart"; u "a chart"] /\
  length (logs (snd out)) = 2%nat.
Proof.
  destruct (generate_image_retries flaky_images config_with_gemini
              image_model (u "a chart") empty_world eq_refl eq_refl)
    as [Hok _].
  apply (Hok 2%nat (u "data/uploads/infograph_3.png")).
  - lia.
  - intros j Hj. exists (mk_exn RuntimeError (u "overloaded")).
    destruct j as [|[|j]]; [split; reflexivity | split; reflexivity | lia].
  - reflexivity.
Defined.

(** ** The transform route: its errors and its side effects *)

Lemma source_map_get_unknown (sid : str) (stored : list Source) :
  (forall s, In s stored -> src_id s <> Some sid) ->
  source_map_get sid stored = None.
Proof.
  induction stored as [|s stored IH]; intros Hno; [reflexivity|].
  simpl. rewrite IH by (intros s' Hs'; apply Hno; right; exact Hs').
  destruct (src_id s) as [i|] eqn:Hid; [|reflexivity].
  destruct (str_eqb i sid) eqn:Heq; [|reflexivity].
  apply str_eqb_eq in Heq. subst i.
  contradiction (Hno s (or_introl eq_refl)).
Qed.

Lemma select_sources_unknown (ids : list str) (stored : list Source) :
  (forall sid s, In sid ids -> In s stored -> src_id s <> Some sid) ->
  select_sources ids stored = [].
Proof.
  induction ids as [|sid ids IH]; intros Hno; [reflexivity|].
  simpl. rewrite source_map_get_unknown.
  - apply IH. intros sid' s Hsid Hs. apply Hno; [right; exact Hsid | exact Hs].
  - intros s Hs. apply Hno; [left; reflexivity | exact Hs].
Qed.

Lemma source_map_get_found (sid : str) (stored : list Source) (s : Source) :
  source_map_get sid stored = Some s -> In s stored /\ src_id s = Some sid.
Proof.
  induction stored as [|s0 stored IH]; [discriminate|]. simpl.
  destruct (source_map_get sid stored) as [s'|].
  - intros H. inversion H. subst s'. destruct (IH eq_refl). tauto.
  - destruct (src_id s0) as [i|] eqn:Hid; [|discriminate].
    destruct (str_eqb i sid) eqn:Heq; [|discriminate].
    intros H. inversion H. subst s0. apply str_eqb_eq in Heq. subst i. tauto.
Qed.

Lemma source_map_get_known (sid : str) (stored : list Source) :
  existsb (bears sid) stored
  = match source_map_get sid stored with Some _ => true | None => false end.
Proof.
  induction stored as [|s0 stored IH]; [reflexivity|]. simpl. rewrite IH.
  destruct (source_map_get sid stored); [apply orb_true_r|].
  rewrite orb_false_r. unfold bears.
  destruct (src_id s0) as [i|]; [|reflexivity].
  destruct (str_eqb i sid); reflexivity.
Qed.

(** X23.  The sources a request selects follow the order in which the
    request names their ids: an id no stored source bears is passed
    over, an id named twice selects its source twice, and every selected
    source is a stored one. *)
Theorem select_sources_follow_request (ids : list str) (stored : list Source) :
  List.map src_id (select_sources ids stored)
  = List.map Some
      (List.filter (fun sid => existsb (bears sid) stored) ids) /\
  Forall (fun s => In s stored) (select_sources ids stored).
Proof.
  induction ids as [|sid ids [IH1 IH2]]; [split; [reflexivity | constructor]|].
  simpl. rewrite source_map_get_known.
  destruct (source_map_get sid stored) as [s|] eqn:Hget; [|tauto].
  destruct (source_map_get_found sid stored s Hget) as [Hin Hid].
  simpl. rewrite Hid, IH1. split; [reflexivity|].
  constructor; assumption.
Qed.

Section RouteFacts.

Variable E : env.
Variable config : Config.
Variable lower : str -> str.

(** X19.  A request that names only ids no stored source bears, or that
    names none in a notebook without sources, is refused with status 400
    before anything is generated: the world is as it was. *)
Theorem transform_rejects_without_sources (fuel : nat) (notebook_id : str)
    (req : TransformationRequest) (w : world) :
  (req_source_ids req = [] -> list_sources E notebook_id = []) ->
  (forall sid s,
     In sid (req_source_ids req) -> In s (list_sources E notebook_id) ->
     src_id s <> Some sid) ->
  transform E config lower fuel notebook_id req w
  = Some (Raise (mk_exn (HTTPException 400) (u "No sources available")), w).
Proof.
  intros Hnone Hunknown.
  assert (Hsel : selected_sources req (list_sources E notebook_id) = []).
  { unfold selected_sources.
    destruct (req_source_ids req) as [|sid ids] eqn:Hids.
    - apply Hnone. reflexivity.
    - apply select_sources_unknown. exact Hunknown. }
  unfold transform, transform_note. rewrite Hsel. reflexivity.
Qed.


Lemma infograph_block_other (req : TransformationRequest)
    (response : TransformationResponse) (metadata : gmap string meta_value)
    (w : world) :
  req_type req <> u "infograph" ->
  infograph_block E config req response metadata w = (Ok metadata, w).
Proof.
  intros Hty. apply str_eqb_neq in Hty. unfold infograph_block. rewrite Hty.
  reflexivity.
Qed.




(** The route when the generation raises an [Exception]. *)
Lemma transform_generation_raises (fuel : nat) (notebook_id : str)
    (req : TransformationRequest) (w w1 : world) (e : exn) :
  selected_sources req (list_sources E notebook_id) <> [] ->
  generate_transformation E config req
    (selected_sources req (list_sources E notebook_id)) w = (Raise e, w1) ->
  is_Exception e = true ->
  transform E config lower fuel notebook_id req w
  = Some (Raise (mk_exn (HTTPException 500)
                   (u "Generation failed: " ++ exn_message e)),
          log ERROR (u "Generation failed: " ++ exn_message e) w1).
Proof.
  intros Hne Hgen Hexn. unfold transform, transform_note.
  destruct (selected_sources req (list_sources E notebook_id)) as [|s0 ss] eqn:Hs;
    [contradiction|].
  unfold bind at 1. unfold try_except. rewrite Hgen, Hexn. reflexivity.
Qed.

(** X20.  When the primary provider fails on a request of a type other
    than [ppt] and [insight], the route answers with status 500 and the
    detail "Generation failed: " followed by the provider's message; the
    failure has been logged twice, by the agent and by the route, and no
    chunk, file or image has been touched. *)
Theorem transform_provider_failure (fuel : nat) (notebook_id : str)
    (req : TransformationRequest) (w : world) (prompt : str) (e : exn) :
  let sources := selected_sources req (list_sources E notebook_id) in
  sources <> [] ->
  req_type req <> u "ppt" ->
  req_type req <> u "insight" ->
  build_prompt E req (source_context config sources) = Ok prompt ->
  llm_reply E (length (llm_prompts w)) prompt = Raise e ->
  is_Exception e = true ->
  exists w',
    transform E config lower fuel notebook_id req w
    = Some (Raise (mk_exn (HTTPException 500)
                     (u "Generation failed: " ++ exn_message e)), w') /\
    logs w' = logs w ++ [(ERROR, u "LLM generation failed: " ++ exn_message e);
                         (ERROR, u "Generation failed: " ++ exn_message e)] /\
    llm_prompts w' = llm_prompts w ++ [prompt] /\
    untouched w w'.
Proof.
  intros sources Hne Hppt Hins Hprompt Hreply Hexn.
  assert (Hgen : generate_transformation E config req sources w
                 = (Raise e,
                    log ERROR (u "LLM generation failed: " ++ exn_message e)
                      (add_llm_prompt prompt w))).
  { apply str_eqb_neq in Hppt, Hins.
    unfold generate_transformation, bind, lift.
    rewrite Hprompt, Hppt, Hins. unfold _generate_text.
    rewrite Hreply, Hexn. reflexivity. }
  eexists. split.
  - apply (transform_generation_raises fuel notebook_id req w _ e Hne Hgen Hexn).
  - simpl. rewrite <- app_assoc. repeat split.
Qed.


(** X22.  After an [insight] note has been created, the report is stored
    as a source of its own and ingested.  A failure to store it is logged
    and the route still returns the note.  Once stored, its chunks are
    appended to the collection under the name of the stored source; and
    where the chunker does not return for the report, the route never
    answers. *)
Theorem transform_insight_source (fuel : nat) (notebook_id : str)
    (req : TransformationRequest) (w w1 : world) (note : Note)
    (ids : list str) (response : TransformationResponse) :
  req_type req = u "insight" ->
  transform_note E config lower notebook_id req w
  = (Ok (note, ids, response), w1) ->
  let insight_source :=
    {| src_id := None; src_notebook_id := notebook_id;
       src_name := u "洞察报告"; src_type := u "insight";
       src_content := Some (resp_content response);
       src_metadata := <["source_ids" := MList ids]>
                         (<["generated_at" := MStr (now_iso E)]> ∅) |} in
  (forall e,
     create_source E insight_source = Raise e -> is_Exception e = true ->
     transform E config lower fuel notebook_id req w
     = Some (Ok note,
             log ERROR (u "failed to create insight source: "
                        ++ exn_message e) w1)) /\
  (forall created chunks,
     create_source E insight_source = Ok created ->
     _split_text fuel config (default [] (src_content created)) = Some chunks ->
     update_source_chunk_count E (src_id created) (len chunks) = Ok tt ->
     transform E config lower fuel notebook_id req w
     = Some (Ok note,
             set_docs (docs w1 ++ make_docs (src_name created) 0 chunks) w1)) /\
  (forall created,
     create_source E insight_source = Ok created ->
     _split_text fuel config (default [] (src_content created)) = None ->
     transform E config lower fuel notebook_id req w = None).
Proof.
  intros Hty Hnote insight_source.
  unfold transform. rewrite Hnote. unfold insight_block. rewrite Hty.
  change (str_eqb (u "insight") (u "insight")) with true. cbv iota.
  fold insight_source.
  split; [|split].
  - intros e He Hexn. rewrite He, Hexn. reflexivity.
  - intros created chunks Hc Hsplit Hupd. rewrite Hc.
    unfold ingest_text. rewrite Hsplit, Hupd. reflexivity.
  - intros created Hc Hsplit. rewrite Hc.
    unfold ingest_text. rewrite Hsplit. reflexivity.
Qed.

End RouteFacts.

Lemma transform_rejects_without_sources_witness :
  transform (scenario chatty tool_missing) default_config ascii_lower 10
    (u "nb")
    {| req_type := u "summary"; req_prompt := None;
       req_source_ids := [u "no-such-id"];
       req_length := u "medium"; req_format := u "markdown" |}
    empty_world
  = Some (Raise (mk_exn (HTTPException 400) (u "No sources available")),
          empty_world).
Proof.
  apply (transform_rejects_without_sources (scenario chatty tool_missing)
           default_config ascii_lower 10 (u "nb")).
  - discriminate.
  - intros sid s [<- | []] [<- | []]. vm_compute. discriminate.
Defined.

Lemma transform_provider_failure_witness :
  exists w',
    transform provider_fails default_config ascii_lower 10 (u "nb")
      summary_request empty_world
    = Some (Raise (mk_exn (HTTPException 500)
                     (u "Generation failed: rate limit")), w') /\
    logs w' = [(ERROR, u "LLM generation failed: rate limit");
               (ERROR, u "Generation failed: rate limit")].
Proof.
  destruct (transform_provider_failure provider_fails default_config
              ascii_lower 10 (u "nb") summary_request empty_world
              (u "Summarise: " ++ source_context default_config [a_source])
              (mk_exn RuntimeError (u "rate limit"))
              ltac:(vm_compute; discriminate) ltac:(vm_compute; discriminate)
              ltac:(vm_compute; discriminate) eq_refl eq_refl eq_refl)
    as (w' & H1 & H2 & _).
  exists w'. split; [exact H1 | exact H2].
Defined.


Lemma transform_insight_source_witness :
  exists note w2,
    transform (scenario chatty tool_succeeds) default_config ascii_lower 10
      (u "nb") insight_request empty_world = Some (Ok note, w2) /\
    docs w2 = [{| page_content := u "# Insight report";
                  meta_source := u "洞察报告"; meta_chunk := 0 |}].
Proof.
  pose (E := scenario chatty tool_succeeds).
  pose (w1 := snd (transform_note E default_config ascii_lower (u "nb")
                     insight_request empty_world)).
  pose (response :=
          {| resp_type := u "insight"; resp_content := u "# Insight report";
             resp_sources := [{| sum_id := u "s1"; sum_name := u "report.txt";
                                 sum_type := u "file" |}];
             resp_metadata := request_metadata insight_request |}).
  pose (note :=
          {| note_id := None; note_notebook_id := u "nb";
             note_title := u "洞察报告";
             note_content := u "# Insight report";
             note_type := u "insight"; note_source_ids := [u "s1"];
             note_metadata := request_metadata insight_request |}).
  pose (created :=
          {| src_id := None; src_notebook_id := u "nb";
             src_name := u "洞察报告"; src_type := u "insight";
             src_content := Some (u "# Insight report");
             src_metadata := <["source_ids" := MList [u "s1"]]>
                               (<["generated_at" := MStr (now_iso E)]> ∅) |}).
  assert (Hnote : transform_note E default_config ascii_lower (u "nb")
                    insight_request empty_world
                  = (Ok (note, [u "s1"], response), w1))
    by (vm_compute; reflexivity).
  destruct (transform_insight_source E default_config ascii_lower 10 (u "nb")
              insight_request empty_world w1 note [u "s1"] response
              eq_refl Hnote)
    as (_ & H & _).
  exists note,
    (set_docs (docs w1 ++ make_docs (u "洞察报告") 0 [u "# Insight report"]) w1).
  split.
  - apply (H created [u "# Insight report"]).
    + reflexivity.
    + vm_compute. reflexivity.
    + reflexivity.
  - vm_compute. reflexivity.
Defined.

(** ** The slide parser: the style block *)

Lemma find_from_spec (sub s : str) :
  forall i j,
    find_from sub s i = j -> j <> (-1)%Z -> (0 <= i)%Z ->
    (i <= j)%Z /\ (Z.to_nat (j - i) <= length s)%nat /\
    is_prefix sub (skipn (Z.to_nat (j - i)) s) = true.
Proof.
  induction s as [|c s IH]; intros i j Hfind Hj Hi; cbn [find_from] in Hfind.
  - destruct (is_prefix sub []) eqn:Hp; [|congruence].
    subst j. rewrite Z.sub_diag. simpl. split; [lia|]. split; [lia | exact Hp].
  - destruct (is_prefix sub (c :: s)) eqn:Hp.
    + subst j. rewrite Z.sub_diag. simpl. split; [lia|]. split; [lia | exact Hp].
    + destruct (IH (i + 1)%Z j Hfind Hj ltac:(lia)) as (H1 & H2 & H3).
      replace (Z.to_nat (j - i)) with (S (Z.to_nat (j - (i + 1)))) by lia.
      simpl. split; [lia|]. split; [lia | exact H3].
Qed.

Lemma find_spec (sub s : str) (j : Z) :
  find sub s = j -> j <> (-1)%Z ->
  (0 <= j)%Z /\ (Z.to_nat j <= length s)%nat /\
  skipn (Z.to_nat j) s = sub ++ skipn (length sub) (skipn (Z.to_nat j) s).
Proof.
  intros Hfind Hj.
  destruct (find_from_spec sub s 0 j Hfind Hj ltac:(lia)) as (H1 & H2 & H3).
  rewrite Z.sub_0_r in H2, H3.
  split; [exact H1|]. split; [exact H2|]. apply is_prefix_app, H3.
Qed.

(** X25.  A style that is not empty is the text between the first
    opening tag and the first closing tag of the style block: the text is
    what stands before the opening tag, the tag, the style, the closing
    tag, and a rest. *)
Theorem extract_style_between_tags (content_ : str) :
  extract_style content_ <> [] ->
  exists before after,
    content_
    = before ++ style_open ++ extract_style content_ ++ style_close ++ after /\
    len before = find style_open content_.
Proof.
  unfold extract_style.
  set (q := find style_open content_). set (p := find style_close content_).
  destruct (negb (q =? -1)%Z && (p >? q)%Z) eqn:Hcond; [|congruence].
  apply andb_true_iff in Hcond. destruct Hcond as [Hq Hp].
  apply negb_true_iff, Z.eqb_neq in Hq. apply Z.gtb_lt in Hp.
  destruct (find_spec style_open content_ q eq_refl Hq) as (Hq0 & Hqn & Hopen).
  assert (Hp1 : p <> (-1)%Z) by lia.
  destruct (find_spec style_close content_ p eq_refl Hp1) as (Hp0 & Hpn & Hclose).
  intros Hne.
  assert (Hlt : (q + 20 < p)%Z).
  { destruct (Z.lt_ge_cases (q + 20) p) as [H | H]; [exact H|].
    contradiction Hne. unfold py_slice.
    rewrite (norm_index_in_range _ p) by (unfold len; lia).
    assert (Hz : Z.to_nat (p - norm_index (len content_) (q + 20)) = 0%nat).
    { unfold norm_index, len.
      destruct (q + 20 <? 0)%Z eqn:Hneg;
        [apply Z.ltb_lt in Hneg | apply Z.ltb_ge in Hneg]; lia. }
    rewrite Hz. reflexivity. }
  assert (Hslice : py_slice content_ (q + 20) p
                   = firstn (Z.to_nat p - (Z.to_nat q + 20))
                       (skipn (Z.to_nat q + 20) content_)).
  { replace (q + 20)%Z with (Z.of_nat (Z.to_nat q + 20)) by lia.
    replace p with (Z.of_nat (Z.to_nat p)) at 1 by lia.
    apply py_slice_in_range. lia. }
  rewrite Hslice.
  exists (firstn (Z.to_nat q) content_),
         (skipn (length style_close) (skipn (Z.to_nat p) content_)).
  split.
  - rewrite <- Hclose.
    rewrite <- (skipn_slice content_ (Z.to_nat q + 20) (Z.to_nat p)) by lia.
    change 20%nat with (length style_open).
    rewrite Nat.add_comm, <- skipn_skipn, <- Hopen.
    symmetry. apply firstn_skipn.
  - unfold len. rewrite length_firstn. lia.
Qed.

Lemma extract_style_between_tags_witness :
  exists before after,
    u "Deck <STYLE_INSTRUCTIONS>flat, blue</STYLE_INSTRUCTIONS> Slide 1"
    = before ++ style_open ++ u "flat, blue" ++ style_close ++ after /\
    len before = 5%Z.
Proof.
  apply (extract_style_between_tags
           (u "Deck <STYLE_INSTRUCTIONS>flat, blue</STYLE_INSTRUCTIONS> Slide 1")).
  vm_compute. discriminate.
Defined.

(** ** The chunker: what neighbouring chunks share *)

Section WindowNeighbours.

Context {A : Type}.

(** The windows in the order they are cut: the one at place [k] behind
    the chunks already there starts [k] steps after [i], and the loop
    goes on behind it only if it does not reach the end. *)
Lemma window_loop_lookup (units : list A) (size overlap : Z) :
  (0 <= overlap < size)%Z ->
  forall fuel i chunks r,
    (0 <= i)%Z ->
    window_loop fuel units size overlap i chunks = Some r ->
    (forall j w, chunks !! j = Some w -> r !! j = Some w) /\
    forall (k : nat) w,
      r !! (length chunks + k)%nat = Some w ->
      let a := (i + Z.of_nat k * (size - overlap))%Z in
      w = py_slice units a (Z.min (a + size) (len units)) /\
      (a < len units)%Z /\
      (forall w', r !! (length chunks + S k)%nat = Some w' ->
                  (a + size < len units)%Z).
Proof.
  intros Hov. induction fuel as [|fuel IH]; intros i chunks r Hi Hr;
    [discriminate|].
  cbn [window_loop] in Hr.
  destruct (i <? len units)%Z eqn:E1.
  - apply Z.ltb_lt in E1.
    set (first := py_slice units i (Z.min (i + size) (len units))) in *.
    destruct (Z.min (i + size) (len units) >=? len units)%Z eqn:E2.
    + inversion Hr. subst r. clear Hr. split.
      * intros j w Hj. apply lookup_app_l_Some. exact Hj.
      * intros k w Hk. destruct k as [|k].
        -- rewrite Nat.add_0_r, list_lookup_middle in Hk by reflexivity.
           inversion Hk. subst w. simpl.
           rewrite Z.add_0_r. split; [reflexivity|]. split; [exact E1|].
           intros w' Hw'. apply lookup_lt_Some in Hw'.
           rewrite length_app in Hw'. simpl in Hw'. lia.
        -- apply lookup_lt_Some in Hk. rewrite length_app in Hk.
           simpl in Hk. lia.
    + assert (Hend : (i + size < len units)%Z).
      { destruct (Z.geb_spec (Z.min (i + size) (len units)) (len units));
          [discriminate | lia]. }
      destruct (IH (i + (size - overlap))%Z (chunks ++ [first]) r
                  ltac:(lia) Hr) as [Hkeep Hnext].
      split.
      * intros j w Hj. apply Hkeep, lookup_app_l_Some, Hj.
      * intros k w Hk. destruct k as [|k].
        -- rewrite Nat.add_0_r in Hk.
           assert (Hfirst : r !! length chunks = Some first).
           { apply Hkeep. apply list_lookup_middle. reflexivity. }
           rewrite Hfirst in Hk. inversion Hk. subst w. simpl.
           rewrite Z.add_0_r. split; [reflexivity|]. split; [exact E1|].
           intros _ _. exact Hend.
        -- assert (Hlen : (length chunks + S k
                           = length (chunks ++ [first]) + k)%nat).
           { rewrite length_app. simpl. lia. }
           rewrite Hlen in Hk.
           destruct (Hnext k w Hk) as (Hw & Ha & Hmore).
           replace (i + Z.of_nat (S k) * (size - overlap))%Z
             with (i + (size - overlap) + Z.of_nat k * (size - overlap))%Z
             by lia.
           split; [exact Hw|]. split; [exact Ha|].
           intros w' Hw'. apply (Hmore w').
           replace (length (chunks ++ [first]) + S k)%nat
             with (length chunks + S (S k))%nat
             by (rewrite length_app; simpl; lia).
           exact Hw'.
  - inversion Hr. subst r. split; [tauto|].
    intros k w Hk. apply lookup_lt_Some in Hk. lia.
Qed.

Lemma skipn_firstn (l : list A) (m n : nat) :
  skipn m (firstn n l) = firstn (n - m) (skipn m l).
Proof.
  revert m n. induction l as [|x l IH]; intros m n.
  - rewrite firstn_nil, !skipn_nil, firstn_nil. reflexivity.
  - destruct n as [|n]; [rewrite !firstn_O, skipn_nil; reflexivity|].
    destruct m as [|m]; [reflexivity|]. simpl. apply IH.
Qed.

(** Of two neighbouring windows the first is full, and the second begins
    with the last [overlap] units of the first and adds at least one. *)
Lemma window_loop_neighbours (units : list A) (size overlap : Z) :
  (0 <= overlap < size)%Z ->
  forall fuel r (k : nat) prev next,
    window_loop fuel units size overlap 0 [] = Some r ->
    r !! k = Some prev -> r !! S k = Some next ->
    len prev = size /\ (overlap < len next)%Z /\
    firstn (Z.to_nat overlap) next = skipn (Z.to_nat (size - overlap)) prev.
Proof.
  intros Hov fuel r k prev next Hr Hprev Hnext.
  destruct (window_loop_lookup units size overlap Hov fuel 0 [] r
              ltac:(lia) Hr) as [_ Hat].
  destruct (Hat k prev Hprev) as (Hp & Hpa & Hpmore).
  destruct (Hat (S k) next Hnext) as (Hn & Hna & _).
  specialize (Hpmore next Hnext). simpl in Hp, Hn, Hpa, Hna, Hpmore.
  set (step := (size - overlap)%Z) in *.
  set (a := (Z.of_nat k * step)%Z) in *.
  replace (Z.of_nat (S k) * step)%Z with (a + step)%Z in * by (subst a; lia).
  assert (Ha : (0 <= a)%Z) by (subst a step; nia).
  rewrite Z.min_l in Hp by lia.
  set (e := Z.min (a + step + size) (len units)) in *.
  assert (He : (a + size < e <= len units)%Z) by (subst e step; lia).
  assert (Hp' : prev = firstn (Z.to_nat size)
                         (skipn (Z.to_nat a) units)).
  { rewrite Hp, py_slice_within by lia. f_equal. lia. }
  assert (Hn' : next = firstn (Z.to_nat (e - (a + step)))
                         (skipn (Z.to_nat (a + step)) units)).
  { rewrite Hn. apply py_slice_within; subst step; lia. }
  unfold len in *.
  split; [|split].
  - rewrite Hp', length_firstn, length_skipn. lia.
  - rewrite Hn', length_firstn, length_skipn. subst step. lia.
  - rewrite Hp', Hn', skipn_firstn, skipn_skipn, firstn_firstn.
    f_equal; [subst step; lia|]. f_equal. subst step. lia.
Qed.

End WindowNeighbours.

Lemma map_lookup_Some {A B} (f : A -> B) (l : list A) (k : nat) (y : B) :
  List.map f l !! k = Some y -> exists x, l !! k = Some x /\ y = f x.
Proof.
  revert k. induction l as [|x l IH]; intros k H; [destruct k; discriminate|].
  destruct k as [|k]; simpl in H.
  - inversion H. eauto.
  - apply IH, H.
Qed.

(** X26.  With an overlap below the chunk size, two neighbouring chunks
    share exactly the overlap: the earlier one is full, and the later one
    begins with the last [overlap] units of the earlier one and holds at
    least one unit more. *)
Theorem split_text_chunks_overlap (c : Config) (text : str) (fuel : nat)
    (chunks : list str) (k : nat) (prev next : str) :
  (effective_overlap c < effective_size c)%Z ->
  _split_text fuel c text = Some chunks ->
  chunks !! k = Some prev -> chunks !! S k = Some next ->
  let units_prev := units_in (cjk_dominant text) prev in
  let units_next := units_in (cjk_dominant text) next in
  len units_prev = effective_size c /\
  (effective_overlap c < len units_next)%Z /\
  firstn (Z.to_nat (effective_overlap c)) units_next
  = skipn (Z.to_nat (effective_size c - effective_overlap c)) units_prev.
Proof.
  intros Hlt Hsplit Hprev Hnext.
  pose proof (effective_overlap_nonnegative c) as Hnn.
  assert (Hov : (0 <= effective_overlap c < effective_size c)%Z) by lia.
  apply split_text_windows in Hsplit.
  destruct (cjk_dominant text); cbn [units_in].
  - destruct (window_loop_neighbours text _ _ Hov fuel chunks k prev next
                Hsplit Hprev Hnext) as (H1 & H2 & H3).
    rewrite !len_map, firstn_map, skipn_map, H3. tauto.
  - destruct Hsplit as (r & Hr & ->).
    apply map_lookup_Some in Hprev, Hnext.
    destruct Hprev as (wp & Hwp & ->). destruct Hnext as (wn & Hwn & ->).
    assert (Hwords : Forall (Forall is_word) r).
    { eapply window_loop_Forall; [| |exact Hr].
      - intros i j. apply Forall_py_slice, split_words.
      - constructor. }
    assert (Hin : forall (j : nat) w, r !! j = Some w -> Forall is_word w).
    { intros j w Hj. apply (proj1 (List.Forall_forall _ _) Hwords).
      apply list_elem_of_In. eapply list_elem_of_lookup_2. exact Hj. }
    rewrite !split_join by eauto.
    apply (window_loop_neighbours (split text) _ _ Hov fuel r k wp wn
             Hr Hwp Hwn).
Qed.

Lemma split_text_chunks_overlap_witness :
  len (units_in false (u "a b c")) = 3%Z /\
  (1 < len (units_in false (u "c d e")))%Z /\
  firstn 1 (units_in false (u "c d e")) = skipn 2 (units_in false (u "a b c")).
Proof.
  apply (split_text_chunks_overlap (cfg 3 1) (u "a b c d e f g") 8
           [u "a b c"; u "c d e"; u "e f g"] 0 (u "a b c") (u "c d e")).
  - vm_compute. reflexivity.
  - vm_compute. reflexivity.
  - reflexivity.
  - reflexivity.
Defined.
